(** * The ReAct agent of [src/ch2/agentReAct.py]

    A shallow embedding of [ReActAgent] (its two parsers and the bounded
    [run] loop) together with the properties of the loop and of the
    parsers.

    Text.  A Python [str] is a [string]; each [ascii] stands for the code
    point of the same number, so the model covers every text whose code
    points are below 256.  The character classes of [re] and of
    [str.strip] are the ones CPython uses for those code points.

    External collaborators.  [LLMClient.think] is an oracle with a state of
    its own; [ToolExecutor] (module [executor], not part of the sources at
    hand) is taken as a parameter through the two methods [run] calls;
    [str.format] on the prompt template is taken as the total rendering
    function of the template.  Logging is left out: no value written to
    the logger is read back. *)

From Stdlib Require Import Bool Arith ZArith List Ascii String Lia.
Import ListNotations.

Local Open Scope list_scope.
Local Open Scope string_scope.

(** ** Python strings *)

Module Str.

Definition nl : ascii := "010"%char.

(** [str.startswith]. *)
Definition startswith (s p : string) : bool := String.prefix p s.

(** [p] occurs in [s] at some position ([p in s]). *)
Fixpoint contains (p s : string) : bool :=
  String.prefix p s ||
  match s with
  | EmptyString => false
  | String _ s' => contains p s'
  end.

(** A character occurs in [s]. *)
Fixpoint mem (c : ascii) (s : string) : bool :=
  match s with
  | EmptyString => false
  | String x s' => Ascii.eqb x c || mem c s'
  end.

Fixpoint forallb (p : ascii -> bool) (s : string) : bool :=
  match s with
  | EmptyString => true
  | String x s' => p x && forallb p s'
  end.

(** [s\[n:\]]. *)
Fixpoint drop (n : nat) (s : string) : string :=
  match n, s with
  | O, _ => s
  | S _, EmptyString => EmptyString
  | S n', String _ s' => drop n' s'
  end.

(** [s\[:n\]]. *)
Fixpoint take (n : nat) (s : string) : string :=
  match n, s with
  | O, _ => EmptyString
  | S _, EmptyString => EmptyString
  | S n', String c s' => String c (take n' s')
  end.

Fixpoint take_while (p : ascii -> bool) (s : string) : string :=
  match s with
  | EmptyString => EmptyString
  | String c s' => if p c then String c (take_while p s') else EmptyString
  end.

Fixpoint drop_while (p : ascii -> bool) (s : string) : string :=
  match s with
  | EmptyString => EmptyString
  | String c s' => if p c then drop_while p s' else s
  end.

(** [s] up to its first line feed, which is left out. *)
Definition first_line (s : string) : string :=
  take_while (fun c => negb (Ascii.eqb c nl)) s.

(** What follows the leftmost occurrence of [p] in [s]. *)
Fixpoint after_first (p s : string) : option string :=
  if String.prefix p s then Some (drop (String.length p) s)
  else
    match s with
    | EmptyString => None
    | String _ s' => after_first p s'
    end.

(** [s.split(LF)]: the lines of [s]. *)
Fixpoint lines (s : string) : list string :=
  match s with
  | EmptyString => [EmptyString]
  | String c s' =>
      if Ascii.eqb c nl then EmptyString :: lines s'
      else
        match lines s' with
        | [] => [String c EmptyString]
        | l :: ls => String c l :: ls
        end
  end.

(** [sep.join(l)]. *)
Fixpoint join (sep : string) (l : list string) : string :=
  match l with
  | [] => EmptyString
  | [x] => x
  | x :: l' => x ++ sep ++ join sep l'
  end.

(** [str.isspace] on one character, for code points below 256
    ([Py_UNICODE_ISSPACE]): TAB, LF, VT, FF, CR, FS, GS, RS, US, SPACE,
    NEL (0x85) and NBSP (0xA0). *)
Definition is_space (c : ascii) : bool :=
  let n := nat_of_ascii c in
  (((9 <=? n) && (n <=? 13)) || ((28 <=? n) && (n <=? 32))
   || (n =? 133) || (n =? 160))%nat.

Fixpoint lstrip (s : string) : string :=
  match s with
  | EmptyString => EmptyString
  | String c s' => if is_space c then lstrip s' else s
  end.

Fixpoint rstrip (s : string) : string :=
  match s with
  | EmptyString => EmptyString
  | String c s' =>
      match rstrip s' with
      | EmptyString => if is_space c then EmptyString else String c EmptyString
      | r => String c r
      end
  end.

(** [str.strip()] with no argument. *)
Definition strip (s : string) : string := rstrip (lstrip s).

(** Truth value of a [str]: only the empty string is false. *)
Definition truthy (s : string) : bool :=
  match s with
  | EmptyString => false
  | String _ _ => true
  end.

End Str.

(** ** The fragment of Python's [re] used by the agent

    A backtracking matcher written as a list of successes: [exec r s gs]
    lists, in the order in which the backtracking engine tries them, the
    ways [r] can match a prefix of [s]; each is the unconsumed rest with
    the groups captured so far.  The first element is the match Python
    reports.  Quantifiers are greedy and range over one-character classes,
    which is all the patterns of the agent use. *)

Module Re.

Inductive cclass : Type :=
| Dot                      (* [.] without DOTALL: anything but LF *)
| Word.                    (* [\w] on str patterns *)

(** [\w] for code points below 256: [Py_UNICODE_ISALNUM] or underscore.
    Above ASCII the alphanumerics are 0xAA, 0xB2, 0xB3, 0xB5, 0xB9, 0xBA,
    0xBC-0xBE, 0xC0-0xD6, 0xD8-0xF6 and 0xF8-0xFF. *)
Definition is_word (c : ascii) : bool :=
  let n := nat_of_ascii c in
  (((48 <=? n) && (n <=? 57)) || ((65 <=? n) && (n <=? 90))
   || ((97 <=? n) && (n <=? 122)) || (n =? 95)
   || (n =? 170) || (n =? 178) || (n =? 179) || (n =? 181)
   || (n =? 185) || (n =? 186) || ((188 <=? n) && (n <=? 190))
   || ((192 <=? n) && (n <=? 214)) || ((216 <=? n) && (n <=? 246))
   || (248 <=? n))%nat.

Definition cmatch (k : cclass) (c : ascii) : bool :=
  match k with
  | Dot => negb (Ascii.eqb c Str.nl)
  | Word => is_word c
  end.

Inductive regex : Type :=
| Lit (l : string)         (* literal text *)
| Star (k : cclass)        (* [k*] *)
| Plus (k : cclass)        (* [k+] *)
| Group (r : regex)        (* [(r)] *)
| Seq (r1 r2 : regex).     (* [r1 r2] *)

(** A match object: the captured groups, group 1 first.  The groups of the
    agent's patterns are not nested, so they close in the order they are
    numbered. *)
Definition Match : Type := list string.

Definition group (m : Match) (i : nat) : string := nth (i - 1) m EmptyString.

(** Rests left by [k*] on [s], longest match first. *)
Fixpoint star (k : cclass) (s : string) : list string :=
  match s with
  | EmptyString => [EmptyString]
  | String c s' => if cmatch k c then (star k s' ++ [s])%list else [s]
  end.

(** [s] without its prefix [l], when [l] is a prefix. *)
Fixpoint chop (l s : string) : option string :=
  match l, s with
  | EmptyString, _ => Some s
  | String a l', String b s' => if Ascii.eqb a b then chop l' s' else None
  | String _ _, EmptyString => None
  end.

(** The text consumed between position [s] and the later position [s']. *)
Definition consumed (s s' : string) : string :=
  Str.take (String.length s - String.length s') s.

Fixpoint exec (r : regex) (s : string) (gs : Match) : list (string * Match) :=
  match r with
  | Lit l =>
      match chop l s with
      | Some s' => [(s', gs)]
      | None => []
      end
  | Star k => map (fun s' => (s', gs)) (star k s)
  | Plus k =>
      match s with
      | EmptyString => []
      | String c s' =>
          if cmatch k c then map (fun s'' => (s'', gs)) (star k s') else []
      end
  | Group r' =>
      map (fun x => (fst x, (snd x ++ [consumed s (fst x)])%list))
        (exec r' s gs)
  | Seq r1 r2 => flat_map (fun x => exec r2 (fst x) (snd x)) (exec r1 s gs)
  end.

(** [re.match(r, s)]: anchored at the start of [s], not at its end. *)
Definition re_match (r : regex) (s : string) : option Match :=
  option_map snd (hd_error (exec r s [])).

(** [re.search(r, s)]: the match at the leftmost position that has one. *)
Fixpoint re_search (r : regex) (s : string) : option Match :=
  match re_match r s with
  | Some m => Some m
  | None =>
      match s with
      | EmptyString => None
      | String _ s' => re_search r s'
      end
  end.

End Re.

Import Re.

(** ** The parsers of [ReActAgent] *)

(** The pattern of the thought: the text [Thought: ], then group 1 = [.*]. *)
Definition thought_re : regex := Seq (Lit "Thought: ") (Group (Star Dot)).

(** The pattern of the action: the text [Action: ], then group 1 = [.*]. *)
Definition action_re : regex := Seq (Lit "Action: ") (Group (Star Dot)).

(** The part of the tool-call pattern after the tool name: an opening
    bracket, a group = [.*], a closing bracket. *)
Definition after_name : regex :=
  Seq (Lit "[") (Seq (Group (Star Dot)) (Lit "]")).

(** The pattern of a tool call: group 1 = [\w+], an opening bracket,
    group 2 = [.*], a closing bracket. *)
Definition tool_re : regex := Seq (Group (Plus Word)) after_name.

(** The pattern of the final answer: the text [Finish], an opening bracket,
    group 1 = [.*], a closing bracket. *)
Definition finish_re : regex :=
  Seq (Lit "Finish[") (Seq (Group (Star Dot)) (Lit "]")).

(** [m.group(1).strip() if m else None] *)
Definition stripped_group1 (m : option Match) : option string :=
  match m with
  | Some m' => Some (Str.strip (group m' 1))
  | None => None
  end.

Definition _parse_output (text : string) : option string * option string :=
  let thought_match := re_search thought_re text in
  let action_match := re_search action_re text in
  let thought := stripped_group1 thought_match in
  let action := stripped_group1 action_match in
  (thought, action).

Definition _parse_action (action_text : string) : option string * option string :=
  match re_match tool_re action_text with
  | Some m => (Some (group m 1), Some (group m 2))
  | None => (None, None)
  end.

Definition lf : string := String Str.nl EmptyString.

(** ** Collaborators of the agent *)

(** One entry of [messages]. *)
Record message : Type := { role : string; content : string }.

(** [LLMClient.think(messages)], with the default temperature: the text of
    the completion, or [None] when the call failed.  [G] is the state of
    the client and of the service behind it. *)
Class LLMClient (G : Type) : Type :=
  think : G -> list message -> option string * G.

(** What [run] uses of [ToolExecutor]: the catalogue text and the lookup
    of a tool by name ([None] when no tool has that name).  A tool takes
    one string and returns one string. *)
Record ToolExecutor : Type := {
  getAvailableTools : string;
  getTool : string -> option (string -> string)
}.

(** The prompt template, through [str.format(tools=, question=, history=)]. *)
Definition PromptTemplate : Type := string -> string -> string -> string.

(** A generator that replays canned responses, one for each call, whatever
    the prompt; once they are used up every call fails. *)
#[export] Instance scripted : LLMClient (list (option string)) :=
  fun g _ =>
    match g with
    | [] => (None, [])
    | r :: g' => (r, g')
    end.

(** ** The agent *)

Record ReActAgent (G : Type) : Type := {
  llm_client : G;
  tool_executor : ToolExecutor;
  max_steps : Z;
  history : list string;
  system_prompt_tmpl : PromptTemplate
}.

Arguments llm_client {G} _.
Arguments tool_executor {G} _.
Arguments max_steps {G} _.
Arguments history {G} _.
Arguments system_prompt_tmpl {G} _.

(** [ReActAgent.__init__]; [max_steps] is 5 when it is not given. *)
Definition default_max_steps : Z := 5.

Definition init {G : Type} (llm_client : G) (tool_executor : ToolExecutor)
    (system_prompt_tmpl : PromptTemplate) (max_steps : option Z)
  : ReActAgent G :=
  {| llm_client := llm_client;
     tool_executor := tool_executor;
     max_steps := match max_steps with
                  | Some n => n
                  | None => default_max_steps
                  end;
     history := [];
     system_prompt_tmpl := system_prompt_tmpl |}.

(** The calls [run] makes to its collaborators, oldest first. *)
Inductive call : Type :=
| LLMCall (messages : list message)
| ToolCall (tool_name tool_input : string).

Definition is_llm_call (c : call) : bool :=
  match c with
  | LLMCall _ => true
  | ToolCall _ _ => false
  end.

Definition llm_calls (cs : list call) : nat :=
  List.length (filter is_llm_call cs).

Definition tool_calls (cs : list call) : list call :=
  filter (fun c => negb (is_llm_call c)) cs.

(** The variables of one activation of [run]. *)
Record frame (G : Type) : Type := {
  self : ReActAgent G;
  current_step : Z;
  calls : list call
}.

Arguments self {G} _.
Arguments current_step {G} _.
Arguments calls {G} _.

Inductive exn : Type :=
| AttributeError.          (* [None] has no attribute [group] *)

(** How one pass through the body of the [while] ends. *)
Inductive flow (G : Type) : Type :=
| Continue (f : frame G)               (* next iteration *)
| Break (f : frame G)                  (* [break] *)
| Return (v : string) (f : frame G)    (* [return final_answer] *)
| Raise (e : exn) (f : frame G).

Arguments Continue {G} _.
Arguments Break {G} _.
Arguments Return {G} _ _.
Arguments Raise {G} _ _.

(** What [run] hands back: a value ([None] when it falls off the loop) or
    an exception. *)
Inductive outcome : Type :=
| Returned (v : option string)
| Raised (e : exn).

(** A value that passes [if x:] where [x] is a string or [None]. *)
Definition if_truthy (o : option string) : option string :=
  match o with
  | Some (String c s) => Some (String c s)
  | _ => None
  end.

(** The two history lines of a step, as the f-strings build them. *)
Definition action_line (action : string) : string := "Action: " ++ action.
Definition observation_line (observation : string) : string :=
  "Observation: " ++ observation.

(** The observation for a tool that is not registered: the tool name
    between two fixed texts.  Their characters lie outside the modelled
    code points and are carried as UTF-8 bytes; the agent never parses an
    observation. *)
Definition unknown_tool_pre : string := "错误:未找到名为 '".
Definition unknown_tool_post : string := "' 的工具。".

Section Run.

Context {G : Type} `{LLMClient G}.

Definition set_history (a : ReActAgent G) (h : list string) : ReActAgent G :=
  {| llm_client := llm_client a;
     tool_executor := tool_executor a;
     max_steps := max_steps a;
     history := h;
     system_prompt_tmpl := system_prompt_tmpl a |}.

Definition set_llm_client (a : ReActAgent G) (g : G) : ReActAgent G :=
  {| llm_client := g;
     tool_executor := tool_executor a;
     max_steps := max_steps a;
     history := history a;
     system_prompt_tmpl := system_prompt_tmpl a |}.

(** The prompt of the current step. *)
Definition render (a : ReActAgent G) (question : string) : string :=
  let tools_desc := getAvailableTools (tool_executor a) in
  let history_str := Str.join lf (history a) in
  system_prompt_tmpl a tools_desc question history_str.

(** Step 4 of the body: what is done with a non-empty [action]. *)
Definition act (action : string) (f : frame G) : flow G :=
  if Str.startswith action "Finish" then
    match re_match finish_re action with
    | Some m => Return (group m 1) f
    | None => Raise AttributeError f
    end
  else
    let (tool_name, tool_input) := _parse_action action in
    match if_truthy tool_name, if_truthy tool_input with
    | Some tool_name, Some tool_input =>
        let tool_function := getTool (tool_executor (self f)) tool_name in
        let (observation, cs) :=
          match tool_function with
          | None =>
              (unknown_tool_pre ++ tool_name ++ unknown_tool_post, calls f)
          | Some tool =>
              (tool tool_input,
               (calls f ++ [ToolCall tool_name tool_input])%list)
          end in
        Continue
          {| self := set_history (self f)
                       (history (self f)
                        ++ [action_line action;
                            observation_line observation])%list;
             current_step := current_step f;
             calls := cs |}
    | _, _ => Continue f
    end.

(** One pass through the body of the [while]. *)
Definition body (question : string) (f : frame G) : flow G :=
  let current_step := (current_step f + 1)%Z in
  let prompt := render (self f) question in
  let messages := [{| role := "user"; content := prompt |}] in
  let (response_text, g) := think (llm_client (self f)) messages in
  let f := {| self := set_llm_client (self f) g;
              current_step := current_step;
              calls := (calls f ++ [LLMCall messages])%list |} in
  match if_truthy response_text with
  | None => Break f
  | Some response_text =>
      let (thought, action) := _parse_output response_text in
      match if_truthy action with
      | None => Break f
      | Some action => act action f
      end
  end.

(** [while current_step < self.max_steps: ...]; [None] when the loop is
    still running after [fuel] evaluations of its test. *)
Fixpoint while (fuel : nat) (question : string) (f : frame G)
  : option (outcome * frame G) :=
  match fuel with
  | O => None
  | S fuel' =>
      if (current_step f <? max_steps (self f))%Z then
        match body question f with
        | Continue f' => while fuel' question f'
        | Break f' => Some (Returned None, f')
        | Return v f' => Some (Returned (Some v), f')
        | Raise e f' => Some (Raised e, f')
        end
      else Some (Returned None, f)
  end.

(** The frame [run] starts from: the history is reset, whatever it was. *)
Definition enter (a : ReActAgent G) : frame G :=
  {| self := set_history a []; current_step := 0; calls := [] |}.

(** [ReActAgent.run(question)]: the outcome and the frame it ends in. *)
Definition run (a : ReActAgent G) (question : string)
  : option (outcome * frame G) :=
  while (S (Z.to_nat (max_steps a))) question (enter a).

(** The frame after [n] passes through the loop that all went on to the
    next iteration; [None] when the loop stopped before. *)
Fixpoint passes (n : nat) (question : string) (f : frame G)
  : option (frame G) :=
  match n with
  | O => Some f
  | S n' =>
      if (current_step f <? max_steps (self f))%Z then
        match body question f with
        | Continue f' => passes n' question f'
        | _ => None
        end
      else None
  end.

(** The frame a pass through the body ends in. *)
Definition frame_of (fl : flow G) : frame G :=
  match fl with
  | Continue f | Break f | Return _ f | Raise _ f => f
  end.

(** The request [body] sends to the generator from frame [f]. *)
Definition request (question : string) (f : frame G) : list message :=
  [{| role := "user"; content := render (self f) question |}].

(** The frame right after the generator has answered and left its client
    in state [g]. *)
Definition answered (question : string) (f : frame G) (g : G) : frame G :=
  {| self := set_llm_client (self f) g;
     current_step := (current_step f + 1)%Z;
     calls := (calls f ++ [LLMCall (request question f)])%list |}.

(** Frame [f] with the client in state [g]. *)
Definition with_llm (f : frame G) (g : G) : frame G :=
  {| self := set_llm_client (self f) g;
     current_step := current_step f;
     calls := calls f |}.

Definition map_flow (k : frame G -> frame G) (fl : flow G) : flow G :=
  match fl with
  | Continue f => Continue (k f)
  | Break f => Break (k f)
  | Return v f => Return v (k f)
  | Raise e f => Raise e (k f)
  end.

(** The pass [fl] ends the run with [r]. *)
Definition stops (fl : flow G) (r : outcome * frame G) : Prop :=
  match fl with
  | Continue _ => False
  | Break f => r = (Returned None, f)
  | Return v f => r = (Returned (Some v), f)
  | Raise e f => r = (Raised e, f)
  end.

End Run.

(** ** Responses *)

(** The response [r] makes the step dispatch a registered tool: it has an
    action that is not a final answer and parses into a tool name with a
    tool of [te] and a non-empty input. *)
Definition dispatches (te : ToolExecutor) (r : string) : Prop :=
  exists action name input tool,
    snd (_parse_output r) = Some action
    /\ Str.startswith action "Finish" = false
    /\ _parse_action action = (Some name, Some input)
    /\ input <> ""
    /\ getTool te name = Some tool.

(** Two lines that are the same, or that both open with [Thought: ] and
    go on with texts that do not contain the prefix of the action. *)
Inductive same_but_thought : string -> string -> Prop :=
| same_line (l : string) : same_but_thought l l
| thought_lines (t1 t2 : string) :
    Str.contains "Action: " t1 = false ->
    Str.contains "Action: " t2 = false ->
    same_but_thought ("Thought: " ++ t1) ("Thought: " ++ t2).

(** Two responses that are the same but for the text of their thought
    lines: both are absent, or both are texts, with as many lines, that
    are line by line the same but for the thought.  The thought lines may
    stand anywhere in the response. *)
Definition differ_in_thought (r1 r2 : option string) : Prop :=
  match r1, r2 with
  | None, None => True
  | Some x, Some y => Forall2 same_but_thought (Str.lines x) (Str.lines y)
  | _, _ => False
  end.

(** Two responses the loop cannot tell apart: both are rejected, or both
    are taken and carry the same action. *)
Definition same_action (r1 r2 : option string) : Prop :=
  match if_truthy r1, if_truthy r2 with
  | None, None => True
  | Some x, Some y =>
      if_truthy (snd (_parse_output x)) = if_truthy (snd (_parse_output y))
  | _, _ => False
  end.

(** What two runs have in common when they are told apart by nothing but
    the state of the generator. *)
Definition same_run {G : Type} (r1 r2 : option (outcome * frame G)) : Prop :=
  match r1, r2 with
  | Some (o1, f1), Some (o2, f2) =>
      o1 = o2
      /\ history (self f1) = history (self f2)
      /\ current_step f1 = current_step f2
      /\ calls f1 = calls f2
  | None, None => True
  | _, _ => False
  end.

(** ** A concrete agent, for the examples *)

Definition search (q : string) : string := "results for " ++ q.

Definition one_tool : ToolExecutor :=
  {| getAvailableTools := "- Search: a web search engine";
     getTool := fun n => if String.eqb n "Search" then Some search else None |}.

Definition simple_tmpl : PromptTemplate :=
  fun tools question history =>
    "Tools:" ++ lf ++ tools ++ lf ++ "Question: " ++ question ++ lf
    ++ "History:" ++ lf ++ history.

Definition agent (n : Z) (script : list (option string))
  : ReActAgent (list (option string)) :=
  init script one_tool simple_tmpl (Some n).

Definition reply (thought action : string) : string :=
  "Thought: " ++ thought ++ lf ++ "Action: " ++ action.

(** ** The parsers, read off the patterns

    What the two parsers compute, written without the matcher; the
    theorems below show that the matcher computes just this. *)

(** The field a scan for [p] yields: what follows the leftmost [p] up to
    the end of that line, stripped. *)
Definition scan (p text : string) : option string :=
  option_map (fun r => Str.strip (Str.first_line r)) (Str.after_first p text).

(** [text = pre ++ p ++ rest] at the leftmost occurrence of [p]. *)
Definition leftmost (p text pre rest : string) : Prop :=
  text = pre ++ p ++ rest /\
  forall pre' rest', text = pre' ++ p ++ rest' ->
    String.length pre <= String.length pre'.

(** The two history lines of the steps that dispatched [pairs]. *)
Definition lines_of (pairs : list (string * string)) : list string :=
  flat_map (fun p => [action_line (fst p); observation_line (snd p)]) pairs.

(** [o] is the field read at the leftmost [p] of [text], or is absent
    because [text] has no [p]. *)
Definition field_of (p text : string) (o : option string) : Prop :=
  match o with
  | Some v =>
      exists pre rest,
        leftmost p text pre rest /\ v = Str.strip (Str.first_line rest)
  | None => forall pre rest, text <> pre ++ p ++ rest
  end.

(** [s = a ++ "]" ++ t] at the last closing bracket of the first line of
    [s]. *)
Fixpoint last_bracket (s : string) : option (string * string) :=
  match s with
  | EmptyString => None
  | String x s' =>
      if Ascii.eqb x Str.nl then None
      else
        match last_bracket s' with
        | Some (a, t) => Some (String x a, t)
        | None => if Ascii.eqb x "]" then Some (EmptyString, s') else None
        end
  end.

(** ** The parsers, in the words of the specification *)

(** Section 4.2: the first line that starts with [p], without [p] and
    trimmed. *)
Definition spec_scan (p text : string) : option string :=
  match find (fun l => Str.startswith l p) (Str.lines text) with
  | Some l => Some (Str.strip (Str.drop (String.length p) l))
  | None => None
  end.

Definition spec_parseOutput (text : string) : option string * option string :=
  (spec_scan "Thought: " text, spec_scan "Action: " text).

(** [s] without its last character, when that character is [c]. *)
Fixpoint chop_last (c : ascii) (s : string) : option string :=
  match s with
  | EmptyString => None
  | String x EmptyString => if Ascii.eqb x c then Some EmptyString else None
  | String x s' => option_map (String x) (chop_last c s')
  end.

(** Section 4.3: one or more word characters, an opening bracket, and the
    rest of the string, which has to end with a closing bracket; the
    argument is what lies between the two. *)
Definition spec_parseAction (action_text : string)
  : option string * option string :=
  let name := Str.take_while is_word action_text in
  match name, chop "[" (Str.drop_while is_word action_text) with
  | String _ _, Some rest =>
      match chop_last "]" rest with
      | Some arg => (Some name, Some arg)
      | None => (None, None)
      end
  | _, _ => (None, None)
  end.

(** ** What a run may ask of its collaborators *)

(** A call as [run] makes them: a request to the generator is one message
    of the user; a tool is called by a name made of word characters that
    does not start with [Finish] and that [te] has registered, on a
    non-empty input. *)
Definition good_call (te : ToolExecutor) (c : call) : Prop :=
  match c with
  | LLMCall messages =>
      exists prompt, messages = [{| role := "user"; content := prompt |}]
  | ToolCall name input =>
      name <> ""
      /\ Str.forallb is_word name = true
      /\ Str.startswith name "Finish" = false
      /\ input <> ""
      /\ Str.mem Str.nl input = false
      /\ exists tool, getTool te name = Some tool
  end.

(** The calls of frame [f] are well formed, and its history has two lines
    for each call of a tool at least and two lines for each call of the
    generator at most. *)
Definition accounted {G : Type} (te : ToolExecutor) (f : frame G) : Prop :=
  tool_executor (self f) = te
  /\ Forall (good_call te) (calls f)
  /\ 2 * List.length (tool_calls (calls f)) <= List.length (history (self f))
  /\ List.length (history (self f)) <= 2 * llm_calls (calls f).

(** The action of a response is missing or blank: the response has no
    [Action: ], or nothing but white space follows the leftmost one on its
    line. *)
Definition no_action (r : string) : Prop :=
  Str.contains "Action: " r = false
  \/ exists pre rest,
       leftmost "Action: " r pre rest
       /\ Str.forallb Str.is_space (Str.first_line rest) = true.

(** [action] is a final answer with payload [p]: the text [Finish], an
    opening bracket, [p] without line feed, a closing bracket, and a tail
    whose first line has no closing bracket. *)
Definition final_answer (action p : string) : Prop :=
  exists tail,
    action = "Finish[" ++ p ++ "]" ++ tail
    /\ Str.mem Str.nl p = false
    /\ Str.mem "]" (Str.first_line tail) = false.

(** ** The client of [src/ch2/client.py]

    Class [LLMClient] of the source: its constructor and [think].  The
    chat service behind [self.client] and the process environment are the
    collaborators, and so is the standard output: a call of [print] may
    raise, and inside [think] that is caught like any other exception.
    The calls to the logger are left out. *)

Module Client.

(** [os.environ], read through [os.getenv]. *)
Definition environ : Type := string -> option string.

(** [a or b] on values that are strings or [None]. *)
Definition or_else (a b : option string) : option string :=
  match if_truthy a with
  | Some x => Some x
  | None => b
  end.

(** The two [ValueError]s of the constructor: the one [int] raises on a
    text that is no integer, and the one raised for missing settings. *)
Inductive value_error : Type :=
| InvalidLiteral (text : string)
| MissingSettings.

(** The arguments [OpenAI] is called with on line 29.  What the library
    does with them, failing included, is outside. *)
Record OpenAI : Type := {
  api_key : string;
  base_url : string;
  timeout : Z
}.

(** An instance of the class, as far as the constructor of the source
    sets it up: the model, and the handle by its arguments. *)
Record t : Type := {
  model : string;
  client : OpenAI
}.

Section Init.

(** [int] applied to a string; [None] when it raises [ValueError]. *)
Variable int : string -> option Z.

(** [timeout or int(os.getenv("TIMEOUT", 60))]. *)
Definition resolve_timeout (env : environ) (timeout : option Z)
  : value_error + Z :=
  match timeout with
  | Some (Zpos n) => inr (Zpos n)
  | Some (Zneg n) => inr (Zneg n)
  | Some Z0 | None =>
      match env "TIMEOUT" with
      | None => inr 60%Z
      | Some text =>
          match int text with
          | Some n => inr n
          | None => inl (InvalidLiteral text)
          end
      end
  end.

(** The constructor up to the call of [OpenAI]: [inl] when one of its
    two [ValueError]s is raised, [inr] when line 29 is reached. *)
Definition __init__ (env : environ) (model apiKey baseUrl : option string)
    (timeout : option Z) : value_error + t :=
  let model := or_else model (env "MODEL_ID") in
  let apiKey := or_else apiKey (env "API_KEY") in
  let baseUrl := or_else baseUrl (env "BASE_URL") in
  match resolve_timeout env timeout with
  | inl e => inl e
  | inr timeout =>
      match if_truthy model, if_truthy apiKey, if_truthy baseUrl with
      | Some model, Some apiKey, Some baseUrl =>
          inr {| model := model;
                 client := {| api_key := apiKey;
                              base_url := baseUrl;
                              timeout := timeout |} |}
      | _, _, _ => inl MissingSettings
      end
  end.

End Init.

(** One choice of a streamed chunk, with its [delta.content]; the delta
    itself is always there, as the service's types have it. *)
Record choice : Type := { delta_content : option string }.

(** One streamed chunk, with its [choices]. *)
Record chunk : Type := { choices : list choice }.

(** What iterating over the response does next: it ends, yields a chunk,
    or raises. *)
Inductive stream : Type :=
| StopIteration
| Yield (c : chunk) (rest : stream)
| StreamError.

(** What [chat.completions.create] does: it raises, or returns the
    stream. *)
Inductive response : Type :=
| APIError
| Opened (s : stream).

(** A decimal literal, [mantissa * 10 ^ exponent]. *)
Record decimal : Type := { mantissa : Z; exponent : Z }.

(** The arguments of [create]. *)
Record request : Type := {
  req_client : OpenAI;
  req_model : string;
  req_messages : list message;
  req_temperature : decimal;
  req_stream : bool
}.

(** The chat service: [S] is its state, one call gives one response. *)
Class ChatService (S : Type) : Type :=
  create : S -> request -> response * S.

(** The standard output: [O] is its state; [write out text] is one call
    of [print] on [text], giving the state after the call and whether the
    call returned rather than raised. *)
Class Console (O : Type) : Type :=
  write : O -> string -> O * bool.

(** The world [think] acts on: the service and the standard output. *)
Record world (S O : Type) : Type := {
  service : S;
  stdout : O
}.

Arguments service {S O} _.
Arguments stdout {S O} _.

(** [chunk.choices\[0\].delta.content or ""]; [None] when the chunk has
    no choice, where the source raises [IndexError]. *)
Definition content_of (c : chunk) : option string :=
  match choices c with
  | [] => None
  | ch :: _ =>
      match if_truthy (delta_content ch) with
      | Some text => Some text
      | None => Some EmptyString
      end
  end.

(** The [for] loop over the stream: the contents collected and the
    state of the standard output; no contents when an exception ends the
    loop, be it from the stream, from a chunk without choice or from
    [print]. *)
Fixpoint collect {O : Type} `{Console O} (s : stream)
    (collected_content : list string) (out : O) : option (list string) * O :=
  match s with
  | StopIteration => (Some collected_content, out)
  | StreamError => (None, out)
  | Yield c rest =>
      match content_of c with
      | None => (None, out)
      | Some content =>
          let (out', ok) := write out content in
          if ok then collect rest (collected_content ++ [content])%list out'
          else (None, out')
      end
  end.

(** The calls of [print] on [texts], one after the other, up to the first
    that raises. *)
Fixpoint writes {O : Type} `{Console O} (out : O) (texts : list string)
  : O * bool :=
  match texts with
  | [] => (out, true)
  | text :: texts' =>
      let (out', ok) := write out text in
      if ok then writes out' texts' else (out', false)
  end.

(** The default of the parameter [temperature], 0.3. *)
Definition default_temperature : decimal :=
  {| mantissa := 3; exponent := -1 |}.

Section Think.

Context {S O : Type} `{ChatService S} `{Console O}.

Definition think (self : t) (messages : list message)
    (temperature : decimal) (w : world S O) : option string * world S O :=
  let (response, svc) :=
    create (service w)
      {| req_client := client self;
         req_model := model self;
         req_messages := messages;
         req_temperature := temperature;
         req_stream := true |} in
  match response with
  | APIError => (None, {| service := svc; stdout := stdout w |})
  | Opened s =>
      match collect s [] (stdout w) with
      | (Some collected_content, out) =>
          let (out', ok) := write out lf in
          if ok
          then (Some (String.concat EmptyString collected_content),
                {| service := svc; stdout := out' |})
          else (None, {| service := svc; stdout := out' |})
      | (None, out) => (None, {| service := svc; stdout := out |})
      end
  end.

End Think.

(** The stream that yields the chunks [cs] and goes on as [rest]. *)
Fixpoint yields (cs : list chunk) (rest : stream) : stream :=
  match cs with
  | [] => rest
  | c :: cs' => Yield c (yields cs' rest)
  end.

(** The contents of the chunks that have a choice, in order. *)
Definition contents (cs : list chunk) : list string :=
  flat_map (fun c => match content_of c with
                     | Some text => [text]
                     | None => []
                     end) cs.

(** A stream that ends the loop with an exception at once. *)
Definition breaks_now (s : stream) : Prop :=
  match s with
  | StreamError => True
  | Yield c _ => choices c = []
  | StopIteration => False
  end.

(** A setting that is given: a string that is not empty. *)
Definition given (o : option string) : Prop :=
  exists c s, o = Some (String c s).

(** The three settings are all given, as arguments or in the environment. *)
Definition settings_given (env : environ) (model apiKey baseUrl : option string)
  : Prop :=
  (given model \/ given (env "MODEL_ID"))
  /\ (given apiKey \/ given (env "API_KEY"))
  /\ (given baseUrl \/ given (env "BASE_URL")).

(** The chunk has a choice to read. *)
Definition has_choice (c : chunk) : Prop := choices c <> [].

(** The request [think] sends. *)
Definition request_of (self : t) (messages : list message)
    (temperature : decimal) : request :=
  {| req_client := client self;
     req_model := model self;
     req_messages := messages;
     req_temperature := temperature;
     req_stream := true |}.

(** A service that replays canned responses, one for each request; once
    they are used up every request fails. *)
#[global] Instance replay : ChatService (list response) :=
  fun svc _ =>
    match svc with
    | [] => (APIError, [])
    | r :: svc' => (r, svc')
    end.

(** A standard output that takes every text: its state is the text
    printed so far. *)
#[global] Instance terminal : Console string :=
  fun out text => (out ++ text, true).

(** A standard output that is closed: every call of [print] raises. *)
#[global] Instance closed : Console unit :=
  fun _ _ => (tt, false).

(** A chunk with one choice. *)
Definition text_chunk (content : option string) : chunk :=
  {| choices := [{| delta_content := content |}] |}.

(** A parser of plain decimal numerals, for the examples. *)
Fixpoint digits (s : string) (acc : Z) : option Z :=
  match s with
  | EmptyString => Some acc
  | String c s' =>
      let n := nat_of_ascii c in
      if ((48 <=? n) && (n <=? 57))%nat
      then digits s' (10 * acc + Z.of_nat (n - 48))%Z
      else None
  end.

Definition numeral (s : string) : option Z :=
  match s with
  | EmptyString => None
  | _ => digits s 0%Z
  end.

End Client.

(** The client as the agent uses it: the instance, and the world its
    calls act on. *)
Record connected (S O : Type) : Type := {
  instance : Client.t;
  outside : Client.world S O
}.

Arguments instance {S O} _.
Arguments outside {S O} _.

(** [self.llm_client.think(messages=messages)], with the default
    temperature. *)
#[export] Instance connected_client {S O : Type} `{Client.ChatService S}
    `{Client.Console O} : LLMClient (connected S O) :=
  fun g messages =>
    let (r, w) :=
      Client.think (instance g) messages Client.default_temperature
        (outside g) in
    (r, {| instance := instance g; outside := w |}).

(** * Properties *)

Example parse_output_ex :
  _parse_output ("Thought: foo" ++ lf ++ "Action: Bar[baz]")
  = (Some "foo", Some "Bar[baz]").
Proof. reflexivity. Qed.

Example parse_action_ex1 :
  _parse_action "Search[openai gpt]" = (Some "Search", Some "openai gpt").
Proof. reflexivity. Qed.

Example parse_action_ex2 : _parse_action "Search" = (None, None).
Proof. reflexivity. Qed.

Example parse_action_ex3 :
  _parse_action "Search[a[b]c]" = (Some "Search", Some "a[b]c").
Proof. reflexivity. Qed.

Example spec_parse_action_ex3 :
  spec_parseAction "Search[a[b]c]" = (Some "Search", Some "a[b]c").
Proof. reflexivity. Qed.

Example spec_parse_output_ex :
  spec_parseOutput ("Thought: foo" ++ lf ++ "Action: Bar[baz]")
  = (Some "foo", Some "Bar[baz]").
Proof. reflexivity. Qed.

(** ** Strings *)

Module StrFacts.

Lemma append_nil_r (s : string) : s ++ "" = s.
Proof. induction s as [|c s IH]; simpl; [reflexivity | now rewrite IH]. Qed.

Lemma append_assoc (a b c : string) : (a ++ b) ++ c = a ++ b ++ c.
Proof. induction a as [|x a IH]; simpl; [reflexivity | now rewrite IH]. Qed.

Lemma length_append (a b : string) :
  String.length (a ++ b) = String.length a + String.length b.
Proof. induction a as [|x a IH]; simpl; [reflexivity | now rewrite IH]. Qed.

Lemma take_append (a b : string) : Str.take (String.length a) (a ++ b) = a.
Proof. induction a as [|x a IH]; simpl; [now destruct b | now rewrite IH]. Qed.

Lemma drop_append (a b : string) : Str.drop (String.length a) (a ++ b) = b.
Proof. induction a as [|x a IH]; simpl; [reflexivity | exact IH]. Qed.

Lemma consumed_append (a b : string) : consumed (a ++ b) b = a.
Proof.
  unfold consumed. rewrite length_append.
  replace (String.length a + String.length b - String.length b)
    with (String.length a) by lia.
  apply take_append.
Qed.

Lemma take_drop_while (p : ascii -> bool) (s : string) :
  Str.take_while p s ++ Str.drop_while p s = s.
Proof.
  induction s as [|c s IH]; simpl; [reflexivity|].
  destruct (p c); simpl; [now rewrite IH | reflexivity].
Qed.

Lemma forallb_take_while (p : ascii -> bool) (s : string) :
  Str.forallb p (Str.take_while p s) = true.
Proof.
  induction s as [|c s IH]; simpl; [reflexivity|].
  destruct (p c) eqn:E; simpl; [now rewrite E | reflexivity].
Qed.

Lemma take_while_append (p : ascii -> bool) (a : string) (c : ascii) (t : string) :
  Str.forallb p a = true -> p c = false ->
  Str.take_while p (a ++ String c t) = a.
Proof.
  intros Ha Hc. induction a as [|x a IH]; simpl in *.
  - now rewrite Hc.
  - apply andb_true_iff in Ha as [Hx Ha]. rewrite Hx. now rewrite IH.
Qed.

Lemma drop_while_append (p : ascii -> bool) (a : string) (c : ascii) (t : string) :
  Str.forallb p a = true -> p c = false ->
  Str.drop_while p (a ++ String c t) = String c t.
Proof.
  intros Ha Hc. induction a as [|x a IH]; simpl in *.
  - now rewrite Hc.
  - apply andb_true_iff in Ha as [Hx Ha]. rewrite Hx. now apply IH.
Qed.

Lemma chop_append (l r : string) : chop l (l ++ r) = Some r.
Proof.
  induction l as [|a l IH]; simpl; [reflexivity|].
  now rewrite Ascii.eqb_refl.
Qed.

Lemma chop_Some (l s r : string) : chop l s = Some r -> s = l ++ r.
Proof.
  revert s. induction l as [|a l IH]; intros s E; simpl in *.
  - now injection E as ->.
  - destruct s as [|b s]; [discriminate|].
    destruct (Ascii.eqb a b) eqn:Eab; [|discriminate].
    apply Ascii.eqb_eq in Eab as ->. simpl. f_equal. now apply IH.
Qed.

Lemma prefix_chop (l s : string) :
  String.prefix l s = true <-> exists r, chop l s = Some r.
Proof.
  revert s. induction l as [|a l IH]; intros s; simpl.
  - split; [intros _; now exists s | now destruct s].
  - destruct s as [|b s].
    + split; [discriminate | intros [r E]; discriminate].
    + simpl. destruct (Ascii.ascii_dec a b) as [->|N].
      * rewrite Ascii.eqb_refl. apply IH.
      * apply Ascii.eqb_neq in N. rewrite N.
        split; [discriminate | intros [r E]; discriminate].
Qed.

Lemma prefix_append (l r : string) : String.prefix l (l ++ r) = true.
Proof. apply prefix_chop. exists r. apply chop_append. Qed.

Lemma prefix_false_chop (l s : string) :
  String.prefix l s = false -> chop l s = None.
Proof.
  intros E. destruct (chop l s) as [r|] eqn:C; [|reflexivity].
  assert (String.prefix l s = true) by (apply prefix_chop; now exists r).
  congruence.
Qed.

Lemma prefix_true_chop (l s : string) :
  String.prefix l s = true -> chop l s = Some (Str.drop (String.length l) s).
Proof.
  intros E. apply prefix_chop in E as [r C]. rewrite C.
  apply chop_Some in C as ->. now rewrite drop_append.
Qed.

Lemma contains_append (p a b : string) : Str.contains p (a ++ p ++ b) = true.
Proof.
  induction a as [|c a IH]; cbn [append].
  - destruct (p ++ b) eqn:E; cbn [Str.contains]; rewrite <- E;
      now rewrite prefix_append.
  - cbn [Str.contains]. rewrite IH. apply orb_true_r.
Qed.

Lemma first_line_no_nl (s : string) :
  Str.mem Str.nl s = false -> Str.first_line s = s.
Proof.
  unfold Str.first_line. induction s as [|c s IH]; [reflexivity|].
  cbn [Str.mem Str.take_while]. intros M.
  apply orb_false_iff in M as [Mc M]. now rewrite Mc, (IH M).
Qed.

Lemma rstrip_last (s : string) (c : ascii) :
  Str.is_space c = false ->
  Str.rstrip (s ++ String c "") = s ++ String c "".
Proof.
  intros Hc. induction s as [|x s IH]; cbn [append Str.rstrip].
  - now rewrite Hc.
  - rewrite IH. now destruct s.
Qed.

(** A text that neither starts nor ends with a space is left as it is. *)
Lemma strip_fixed (x : ascii) (s : string) (c : ascii) :
  Str.is_space x = false -> Str.is_space c = false ->
  Str.strip (String x (s ++ String c "")) = String x (s ++ String c "").
Proof.
  intros Hx Hc. unfold Str.strip. cbn [Str.lstrip]. rewrite Hx.
  exact (rstrip_last (String x s) c Hc).
Qed.

(** No occurrence of [p] runs over a line feed when [p] has none. *)
Lemma prefix_no_straddle (p t x : string) :
  Str.mem Str.nl p = false ->
  String.prefix p t = false ->
  String.prefix p (t ++ String Str.nl x) = false.
Proof.
  revert t. induction p as [|a p IH]; intros t M P.
  - now destruct t.
  - cbn [Str.mem] in M. apply orb_false_iff in M as [Ma M].
    destruct t as [|b t]; cbn [append].
    + cbn. destruct (Ascii.ascii_dec a Str.nl) as [->|N]; [|reflexivity].
      now rewrite Ascii.eqb_refl in Ma.
    + cbn in P |- *. destruct (Ascii.ascii_dec a b); [|reflexivity].
      now apply IH.
Qed.

Lemma after_first_skip_line (p t tail : string) :
  Str.mem Str.nl p = false ->
  Str.contains p t = false ->
  Str.after_first p (t ++ String Str.nl tail) = Str.after_first p tail.
Proof.
  intros M. induction t as [|c t IH]; intros C.
  - cbn in C. destruct p as [|a p]; [discriminate|].
    cbn [append Str.after_first].
    replace (String.prefix (String a p) (String Str.nl tail)) with false;
      [reflexivity|].
    cbn. destruct (Ascii.ascii_dec a Str.nl) as [->|N]; [|reflexivity].
    cbn [Str.mem] in M. now rewrite Ascii.eqb_refl in M.
  - cbn [Str.contains] in C. apply orb_false_iff in C as [P C].
    cbn [append Str.after_first].
    change (String c (t ++ String Str.nl tail))
      with (String c t ++ String Str.nl tail).
    rewrite (prefix_no_straddle _ _ _ M P). now apply IH.
Qed.

End StrFacts.

(** ** The matcher on the patterns of the agent *)

Module ReFacts.

Import StrFacts.

Lemma hd_error_app {A : Type} (l1 l2 : list A) :
  hd_error (l1 ++ l2)
  = match hd_error l1 with
    | Some x => Some x
    | None => hd_error l2
    end.
Proof. now destruct l1. Qed.

Lemma hd_error_map {A B : Type} (f : A -> B) (l : list A) :
  hd_error (map f l) = option_map f (hd_error l).
Proof. now destruct l. Qed.

(** The first rest [k*] leaves is the one of the longest match. *)
Lemma star_hd (k : cclass) (s : string) :
  hd_error (star k s) = Some (Str.drop_while (cmatch k) s).
Proof.
  induction s as [|c s IH]; simpl; [reflexivity|].
  destruct (cmatch k c); [|reflexivity].
  now rewrite hd_error_app, IH.
Qed.

Lemma consumed_drop_while (p : ascii -> bool) (s : string) :
  consumed s (Str.drop_while p s) = Str.take_while p s.
Proof.
  rewrite <- (take_drop_while p s) at 1. apply consumed_append.
Qed.

(** A literal followed by [( .* )], matched at the start of [s]. *)
Lemma re_match_line (p s : string) :
  re_match (Seq (Lit p) (Group (Star Dot))) s
  = option_map (fun r => [Str.first_line r]) (chop p s).
Proof.
  unfold re_match. simpl. destruct (chop p s) as [r|]; simpl; [|reflexivity].
  rewrite app_nil_r, map_map, hd_error_map, star_hd. simpl.
  now rewrite consumed_drop_while.
Qed.

(** The same pattern, searched for: it matches at the leftmost [p]. *)
Lemma re_search_line (p s : string) :
  re_search (Seq (Lit p) (Group (Star Dot))) s
  = option_map (fun r => [Str.first_line r]) (Str.after_first p s).
Proof.
  induction s as [|c s IH].
  - cbn [re_search Str.after_first]. rewrite re_match_line.
    destruct (String.prefix p "") eqn:E.
    + now rewrite (prefix_true_chop _ _ E).
    + now rewrite (prefix_false_chop _ _ E).
  - cbn [re_search Str.after_first]. rewrite re_match_line.
    destruct (String.prefix p (String c s)) eqn:E.
    + now rewrite (prefix_true_chop _ _ E).
    + rewrite (prefix_false_chop _ _ E). exact IH.
Qed.

Lemma parse_output_scan (text : string) :
  _parse_output text = (scan "Thought: " text, scan "Action: " text).
Proof.
  unfold _parse_output, thought_re, action_re, scan.
  rewrite !re_search_line.
  now destruct (Str.after_first "Thought: " text),
               (Str.after_first "Action: " text).
Qed.

End ReFacts.

(** ** The leftmost occurrence of a text *)

Module ScanFacts.

Import StrFacts.

Lemma after_first_Some (p s r : string) :
  Str.after_first p s = Some r -> exists pre, leftmost p s pre r.
Proof.
  induction s as [|c s IH]; cbn [Str.after_first].
  - destruct (String.prefix p "") eqn:E; [|discriminate].
    intros [= <-]. exists "". split; [|simpl; lia].
    apply prefix_true_chop in E. now apply chop_Some in E.
  - destruct (String.prefix p (String c s)) eqn:E.
    + intros [= <-]. exists "". split; [|simpl; lia].
      apply prefix_true_chop in E. now apply chop_Some in E.
    + intros A. destruct (IH A) as (pre & -> & Hmin).
      exists (String c pre). split; [reflexivity|].
      intros [|c' pre'] rest' E'; simpl in E'.
      * rewrite E' in E. now rewrite prefix_append in E.
      * injection E' as _ E'. simpl. apply le_n_S. now apply (Hmin _ rest').
Qed.

Lemma after_first_None (p s : string) :
  Str.after_first p s = None -> forall pre rest, s <> pre ++ p ++ rest.
Proof.
  induction s as [|c s IH]; cbn [Str.after_first].
  - destruct (String.prefix p "") eqn:E; [discriminate|].
    intros _ [|c' pre] rest E'; simpl in E'; [|discriminate].
    rewrite E' in E. now rewrite prefix_append in E.
  - destruct (String.prefix p (String c s)) eqn:E; [discriminate|].
    intros A [|c' pre] rest E'; simpl in E'.
    + rewrite E' in E. now rewrite prefix_append in E.
    + injection E' as _ E'. now apply (IH A pre rest).
Qed.

Lemma scan_field_of (p text : string) : field_of p text (scan p text).
Proof.
  unfold scan. destruct (Str.after_first p text) as [r|] eqn:A; simpl.
  - destruct (after_first_Some _ _ _ A) as [pre L]. now exists pre, r.
  - now apply after_first_None.
Qed.

End ScanFacts.

(** ** The bracketed argument *)

Module BracketFacts.

Import StrFacts ReFacts.

(** What the matcher does with [( .* )] followed by a closing bracket;
    [h] computes the capture from the rest the star leaves. *)
Lemma star_then_bracket {A : Type} (h : string -> A) (gs : list A) (r : string) :
  hd_error
    (flat_map
       (fun s' =>
          match chop "]" s' with
          | Some t => [(t, (gs ++ [h s'])%list)]
          | None => []
          end)
       (star Dot r))
  = match last_bracket r with
    | Some (a, t) => Some (t, (gs ++ [h (String "]" t)])%list)
    | None => None
    end.
Proof.
  induction r as [|x r IH]; [reflexivity|].
  cbn [star last_bracket cmatch].
  destruct (Ascii.eqb x Str.nl) eqn:Enl; cbn [negb].
  - apply Ascii.eqb_eq in Enl as ->. reflexivity.
  - rewrite flat_map_app, hd_error_app, IH.
    destruct (last_bracket r) as [[a t]|]; [reflexivity|].
    cbn [flat_map chop]. rewrite Ascii.eqb_sym.
    destruct (Ascii.eqb x "]") eqn:Eb; [|reflexivity].
    apply Ascii.eqb_eq in Eb as ->. reflexivity.
Qed.

Lemma exec_bracket (r : string) (gs : Match) :
  hd_error (exec (Seq (Group (Star Dot)) (Lit "]")) r gs)
  = match last_bracket r with
    | Some (a, t) => Some (t, (gs ++ [consumed r (String "]" t)])%list)
    | None => None
    end.
Proof.
  cbn [exec]. rewrite !map_map. cbn [fst snd].
  rewrite flat_map_concat_map, map_map, <- flat_map_concat_map.
  cbn [fst snd exec].
  exact (star_then_bracket (consumed r) gs r).
Qed.

Lemma last_bracket_split (r a t : string) :
  last_bracket r = Some (a, t) ->
  r = a ++ String "]" t /\ Str.mem Str.nl a = false
  /\ Str.mem "]" (Str.first_line t) = false.
Proof.
  revert a. induction r as [|x r IH]; intros a; cbn [last_bracket];
    [discriminate|].
  destruct (Ascii.eqb x Str.nl) eqn:Enl; [discriminate|].
  destruct (last_bracket r) as [[a' t']|] eqn:L.
  - intros [= <- <-]. destruct (IH _ eq_refl) as (-> & Ha & Ht).
    repeat split; [|exact Ht]. cbn [Str.mem]. now rewrite Enl.
  - destruct (Ascii.eqb x "]") eqn:Eb; [|discriminate].
    intros [= <- <-]. apply Ascii.eqb_eq in Eb as ->.
    repeat split. clear IH Enl.
    induction r as [|y r IHr]; [reflexivity|].
    cbn [last_bracket] in L. unfold Str.first_line. cbn [Str.take_while].
    destruct (Ascii.eqb y Str.nl) eqn:Enl; [reflexivity|].
    cbn [negb Str.mem].
    destruct (last_bracket r) as [[a' t']|]; [discriminate|].
    destruct (Ascii.eqb y "]"); [discriminate|]. now apply IHr.
Qed.

Lemma last_bracket_none_line (t : string) :
  Str.mem "]" (Str.first_line t) = false -> last_bracket t = None.
Proof.
  induction t as [|y t IH]; [reflexivity|].
  unfold Str.first_line. cbn [Str.take_while last_bracket].
  destruct (Ascii.eqb y Str.nl); [reflexivity|].
  cbn [negb Str.mem]. intros M. apply orb_false_iff in M as [My M].
  now rewrite (IH M), My.
Qed.

Lemma last_bracket_join (a t : string) :
  Str.mem Str.nl a = false ->
  Str.mem "]" (Str.first_line t) = false ->
  last_bracket (a ++ String "]" t) = Some (a, t).
Proof.
  intros Ha Ht. induction a as [|x a IH].
  - cbn. now rewrite (last_bracket_none_line _ Ht).
  - cbn [Str.mem] in Ha. apply orb_false_iff in Ha as [Hx Ha].
    cbn [append last_bracket]. now rewrite Hx, (IH Ha).
Qed.

(** The captured argument, once the rest is split at the last bracket. *)
Lemma re_match_bracket (r : string) (gs : Match) :
  hd_error (exec (Seq (Group (Star Dot)) (Lit "]")) r gs)
  = option_map (fun at_ => (snd at_, (gs ++ [fst at_])%list)) (last_bracket r).
Proof.
  rewrite exec_bracket.
  destruct (last_bracket r) as [[a t]|] eqn:L; [|reflexivity].
  destruct (last_bracket_split _ _ _ L) as (-> & _ & _).
  cbn. now rewrite consumed_append.
Qed.

Lemma re_match_finish (s : string) :
  re_match finish_re s
  = match chop "Finish[" s with
    | Some r => option_map (fun at_ => [fst at_]) (last_bracket r)
    | None => None
    end.
Proof.
  unfold re_match, finish_re.
  change (exec (Seq (Lit "Finish[") (Seq (Group (Star Dot)) (Lit "]"))) s [])
    with (flat_map
            (fun x => exec (Seq (Group (Star Dot)) (Lit "]")) (fst x) (snd x))
            (exec (Lit "Finish[") s [])).
  change (exec (Lit "Finish[") s [])
    with (match chop "Finish[" s with
          | Some s' => [(s', @nil string)]
          | None => []
          end).
  destruct (chop "Finish[" s) as [r|]; [|reflexivity].
  cbn [flat_map fst snd]. rewrite app_nil_r, re_match_bracket.
  now destruct (last_bracket r) as [[a t]|].
Qed.

End BracketFacts.

(** ** The tool-call pattern *)

Module ToolFacts.

Import StrFacts ReFacts BracketFacts.

Lemma word_not_bracket (c : ascii) :
  is_word c = true -> Ascii.eqb "[" c = false.
Proof.
  intros W. destruct (Ascii.eqb "[" c) eqn:E; [|reflexivity].
  apply Ascii.eqb_eq in E as <-. discriminate W.
Qed.

(** Only the longest run of word characters can be followed by anything
    that is not a word character. *)
Lemma flat_map_star_word {A : Type} (g : string -> list A) (s : string) :
  (forall c t, is_word c = true -> g (String c t) = []) ->
  flat_map g (star Word s) = g (Str.drop_while is_word s).
Proof.
  intros Hg. induction s as [|c s IH]; cbn [star Str.drop_while cmatch].
  - cbn. apply app_nil_r.
  - destruct (is_word c) eqn:W.
    + rewrite flat_map_app, IH. cbn [flat_map].
      rewrite (Hg c s W). now rewrite !app_nil_r.
    + cbn. apply app_nil_r.
Qed.

Lemma exec_after_name (s : string) (gs : Match) :
  exec after_name s gs
  = match chop "[" s with
    | Some r => exec (Seq (Group (Star Dot)) (Lit "]")) r gs
    | None => []
    end.
Proof.
  unfold after_name.
  change (exec (Seq (Lit "[") (Seq (Group (Star Dot)) (Lit "]"))) s gs)
    with (flat_map
            (fun x => exec (Seq (Group (Star Dot)) (Lit "]")) (fst x) (snd x))
            (match chop "[" s with
             | Some s' => [(s', gs)]
             | None => []
             end)).
  destruct (chop "[" s) as [r|]; [|reflexivity].
  cbn [flat_map fst snd]. apply app_nil_r.
Qed.

Lemma exec_tool_word (c : ascii) (s : string) :
  is_word c = true ->
  exec tool_re (String c s) []
  = exec after_name (Str.drop_while is_word s)
      [String c (Str.take_while is_word s)].
Proof.
  intros W.
  change (exec tool_re (String c s) [])
    with (flat_map (fun x => exec after_name (fst x) (snd x))
            (map (fun x => (fst x, (snd x ++ [consumed (String c s) (fst x)])%list))
               (if is_word c
                then map (fun s'' => (s'', @nil string)) (star Word s)
                else []))).
  rewrite W, map_map. cbn [fst snd app].
  rewrite flat_map_concat_map, map_map, <- flat_map_concat_map.
  cbn [fst snd].
  rewrite (flat_map_star_word
             (fun s1 => exec after_name s1 [consumed (String c s) s1])).
  - f_equal. f_equal.
    rewrite <- (take_drop_while is_word s) at 1.
    exact (consumed_append (String c (Str.take_while is_word s)) _).
  - intros c' t W'. rewrite exec_after_name. cbn [chop].
    now rewrite (word_not_bracket _ W').
Qed.

Lemma re_match_tool (s : string) :
  re_match tool_re s
  = match Str.take_while is_word s, chop "[" (Str.drop_while is_word s) with
    | String c n, Some r =>
        option_map (fun at_ => [String c n; fst at_]) (last_bracket r)
    | _, _ => None
    end.
Proof.
  unfold re_match. destruct s as [|c s]; [reflexivity|].
  cbn [Str.take_while Str.drop_while].
  destruct (is_word c) eqn:W.
  - rewrite (exec_tool_word _ _ W), exec_after_name.
    destruct (chop "[" (Str.drop_while is_word s)) as [r|]; [|reflexivity].
    rewrite re_match_bracket. now destruct (last_bracket r) as [[a t]|].
  - change (exec tool_re (String c s) [])
      with (flat_map (fun x => exec after_name (fst x) (snd x))
              (map (fun x => (fst x, (snd x ++ [consumed (String c s) (fst x)])%list))
                 (if is_word c
                  then map (fun s'' => (s'', @nil string)) (star Word s)
                  else []))).
    now rewrite W.
Qed.

(** [_parse_action], read off the pattern. *)
Lemma parse_action_eq (s : string) :
  _parse_action s
  = match Str.take_while is_word s, chop "[" (Str.drop_while is_word s) with
    | String c n, Some r =>
        match last_bracket r with
        | Some (a, _) => (Some (String c n), Some a)
        | None => (None, None)
        end
    | _, _ => (None, None)
    end.
Proof.
  unfold _parse_action. rewrite re_match_tool.
  destruct (Str.take_while is_word s) as [|c n]; [reflexivity|].
  destruct (chop "[" (Str.drop_while is_word s)) as [r|]; [|reflexivity].
  now destruct (last_bracket r) as [[a t]|].
Qed.

Lemma parse_action_join (n a t : string) :
  n <> "" ->
  Str.forallb is_word n = true ->
  Str.mem Str.nl a = false ->
  Str.mem "]" (Str.first_line t) = false ->
  _parse_action (n ++ String "[" (a ++ String "]" t)) = (Some n, Some a).
Proof.
  intros Hn Hw Ha Ht. rewrite parse_action_eq.
  rewrite (take_while_append is_word n "[" _ Hw eq_refl).
  rewrite (drop_while_append is_word n "[" _ Hw eq_refl).
  destruct n as [|c n']; [contradiction|].
  cbn [chop]. rewrite Ascii.eqb_refl. cbn [chop].
  now rewrite (last_bracket_join _ _ Ha Ht).
Qed.

Lemma parse_action_Some (s n a : string) :
  _parse_action s = (Some n, Some a) -> n <> "" /\ s <> "".
Proof.
  rewrite parse_action_eq. destruct s as [|c s]; [discriminate|].
  destruct (Str.take_while is_word (String c s)) as [|c' n']; [discriminate|].
  destruct (chop "[" _) as [r|]; [|discriminate].
  destruct (last_bracket r) as [[a' t]|]; [|discriminate].
  intros [= <- <-]. split; discriminate.
Qed.

End ToolFacts.

(** ** One pass through the loop *)

Section BodyFacts.

Context {G : Type} `{LLMClient G}.

Lemma llm_calls_llm (cs : list call) (m : list message) :
  llm_calls (cs ++ [LLMCall m]) = S (llm_calls cs).
Proof.
  unfold llm_calls. rewrite filter_app, length_app. simpl. lia.
Qed.

Lemma llm_calls_tool (cs : list call) (n i : string) :
  llm_calls (cs ++ [ToolCall n i]) = llm_calls cs.
Proof.
  unfold llm_calls. rewrite filter_app, length_app. simpl. lia.
Qed.

Lemma tool_calls_answered (q : string) (f : frame G) (g : G) :
  tool_calls (calls (answered q f g)) = tool_calls (calls f).
Proof.
  unfold answered, tool_calls. cbn [calls].
  rewrite filter_app. cbn. apply app_nil_r.
Qed.

(** [body] is the call to the generator followed by the treatment of its
    answer. *)
Lemma body_eq (q : string) (f : frame G) :
  body q f
  = let (response_text, g) := think (llm_client (self f)) (request q f) in
    match if_truthy response_text with
    | None => Break (answered q f g)
    | Some response_text =>
        match if_truthy (snd (_parse_output response_text)) with
        | None => Break (answered q f g)
        | Some action => act action (answered q f g)
        end
    end.
Proof.
  unfold body, request, answered.
  destruct (think _ _) as [r g]. destruct (if_truthy r); [|reflexivity].
  now destruct (_parse_output s).
Qed.

(** What [act] leaves alone. *)
Lemma act_frame (action : string) (f : frame G) :
  let f' := frame_of (act action f) in
  current_step f' = current_step f
  /\ max_steps (self f') = max_steps (self f)
  /\ tool_executor (self f') = tool_executor (self f)
  /\ system_prompt_tmpl (self f') = system_prompt_tmpl (self f)
  /\ llm_client (self f') = llm_client (self f)
  /\ llm_calls (calls f') = llm_calls (calls f).
Proof.
  unfold act.
  destruct (Str.startswith action "Finish").
  - destruct (re_match finish_re action); repeat split.
  - destruct (_parse_action action) as [n i].
    destruct (if_truthy n) as [n'|]; [|repeat split].
    destruct (if_truthy i) as [i'|]; [|repeat split].
    destruct (getTool _ n'); repeat split.
    cbn [frame_of calls]. apply llm_calls_tool.
Qed.

(** What [act] does to the history. *)
Lemma act_history (action : string) (f : frame G) :
  match act action f with
  | Continue f' =>
      f' = f \/
      exists observation,
        history (self f')
        = (history (self f)
           ++ [action_line action; observation_line observation])%list
  | fl => frame_of fl = f
  end.
Proof.
  unfold act.
  destruct (Str.startswith action "Finish").
  - now destruct (re_match finish_re action).
  - destruct (_parse_action action) as [n i].
    destruct (if_truthy n) as [n'|]; [|now left].
    destruct (if_truthy i) as [i'|]; [|now left].
    destruct (getTool _ n'); right; eexists; reflexivity.
Qed.

Lemma body_frame (q : string) (f : frame G) :
  let f' := frame_of (body q f) in
  current_step f' = (current_step f + 1)%Z
  /\ max_steps (self f') = max_steps (self f)
  /\ tool_executor (self f') = tool_executor (self f)
  /\ system_prompt_tmpl (self f') = system_prompt_tmpl (self f)
  /\ llm_calls (calls f') = S (llm_calls (calls f)).
Proof.
  rewrite body_eq. destruct (think _ _) as [r g].
  assert (B : let f' := answered q f g in
              current_step f' = (current_step f + 1)%Z
              /\ max_steps (self f') = max_steps (self f)
              /\ tool_executor (self f') = tool_executor (self f)
              /\ system_prompt_tmpl (self f') = system_prompt_tmpl (self f)
              /\ llm_calls (calls f') = S (llm_calls (calls f))).
  { unfold answered. cbn [self current_step calls set_llm_client max_steps
      tool_executor system_prompt_tmpl].
    rewrite llm_calls_llm. repeat split. }
  destruct (if_truthy r) as [r'|]; [|exact B].
  destruct (if_truthy (snd (_parse_output r'))) as [action|]; [|exact B].
  pose proof (act_frame action (answered q f g)) as A.
  cbv zeta in A, B |- *.
  destruct A as (A1 & A2 & A3 & A4 & _ & A5).
  destruct B as (B1 & B2 & B3 & B4 & B5).
  rewrite A1, A2, A3, A4, A5. tauto.
Qed.

(** The history grows by one pair of lines or not at all, and only in a
    pass that goes on to the next iteration. *)
Lemma body_history (q : string) (f : frame G) :
  match body q f with
  | Continue f' =>
      history (self f') = history (self f) \/
      exists action observation,
        history (self f')
        = (history (self f)
           ++ [action_line action; observation_line observation])%list
  | fl => history (self (frame_of fl)) = history (self f)
  end.
Proof.
  rewrite body_eq. destruct (think _ _) as [r g].
  destruct (if_truthy r) as [r'|]; [|reflexivity].
  destruct (if_truthy (snd (_parse_output r'))) as [action|]; [|reflexivity].
  pose proof (act_history action (answered q f g)) as A.
  destruct (act action (answered q f g)) as [f'|f'|v f'|e f'].
  - destruct A as [->|[o E]]; [now left|]. right. now exists action, o.
  - cbn in A. now subst f'.
  - cbn in A. now subst f'.
  - cbn in A. now subst f'.
Qed.

End BodyFacts.

(** ** The loop *)

Section LoopFacts.

Context {G : Type} `{LLMClient G}.

Lemma passes_inv (q : string) (m : nat) :
  forall f fm, passes m q f = Some fm ->
    current_step fm = (current_step f + Z.of_nat m)%Z
    /\ max_steps (self fm) = max_steps (self f)
    /\ tool_executor (self fm) = tool_executor (self f)
    /\ system_prompt_tmpl (self fm) = system_prompt_tmpl (self f)
    /\ llm_calls (calls fm) = llm_calls (calls f) + m
    /\ ((0 < m)%nat -> (current_step fm <= max_steps (self f))%Z)
    /\ exists pairs,
         history (self fm) = (history (self f) ++ lines_of pairs)%list.
Proof.
  induction m as [|m IH]; intros f fm; cbn [passes].
  - intros [= <-]. repeat split; try lia.
    exists []. cbn. now rewrite app_nil_r.
  - destruct (current_step f <? max_steps (self f))%Z eqn:Guard; [|discriminate].
    pose proof (body_frame q f) as B. pose proof (body_history q f) as Hh.
    destruct (body q f) as [f'|f'|v f'|e f']; try discriminate.
    cbn in B. destruct B as (B1 & B2 & B3 & B4 & B5).
    intros P. destruct (IH _ _ P) as (I1 & I2 & I3 & I4 & I5 & I6 & pairs & I7).
    apply Z.ltb_lt in Guard.
    repeat split; try congruence; try lia.
    destruct Hh as [Hh|(a & o & Hh)].
    + exists pairs. now rewrite I7, Hh.
    + exists ((a, o) :: pairs). rewrite I7, Hh, <- app_assoc. reflexivity.
Qed.

(** The loop ends whenever the fuel exceeds the steps that are left. *)
Lemma while_total (q : string) (fuel : nat) :
  forall f,
    (Z.to_nat (max_steps (self f) - current_step f) < fuel)%nat ->
    exists r, while fuel q f = Some r.
Proof.
  induction fuel as [|fuel IH]; intros f Hfuel; [lia|].
  cbn [while].
  destruct (current_step f <? max_steps (self f))%Z eqn:Guard; [|eauto].
  apply Z.ltb_lt in Guard.
  pose proof (body_frame q f) as B.
  destruct (body q f) as [f'|f'|v f'|e f']; eauto.
  cbn in B. destruct B as (B1 & B2 & _). apply IH. rewrite B1, B2. lia.
Qed.

(** A run is a number of passes that go on, followed by the failing loop
    test or by one pass that stops. *)
Lemma while_passes (q : string) (fuel : nat) :
  forall f r, while fuel q f = Some r ->
    exists m fm,
      passes m q f = Some fm
      /\ (((current_step fm <? max_steps (self fm))%Z = false
           /\ r = (Returned None, fm))
          \/ ((current_step fm <? max_steps (self fm))%Z = true
              /\ stops (body q fm) r)).
Proof.
  induction fuel as [|fuel IH]; intros f r; cbn [while]; [discriminate|].
  destruct (current_step f <? max_steps (self f))%Z eqn:Guard.
  - destruct (body q f) as [f'|f'|v f'|e f'] eqn:B.
    + intros W. destruct (IH _ _ W) as (m & fm & P & D).
      exists (S m), fm. split; [|exact D]. cbn [passes]. now rewrite Guard, B.
    + intros [= <-]. exists 0, f. split; [reflexivity|]. right.
      split; [exact Guard|]. now rewrite B.
    + intros [= <-]. exists 0, f. split; [reflexivity|]. right.
      split; [exact Guard|]. now rewrite B.
    + intros [= <-]. exists 0, f. split; [reflexivity|]. right.
      split; [exact Guard|]. now rewrite B.
  - intros [= <-]. exists 0, f. split; [reflexivity|]. now left.
Qed.

(** Passes that go on are the first passes of every longer run of passes. *)
Lemma passes_le (q : string) (m : nat) :
  forall f fm k, passes m q f = Some fm -> (k <= m)%nat ->
    exists fk, passes k q f = Some fk.
Proof.
  induction m as [|m IH]; intros f fm k P L.
  - replace k with 0 by lia. eauto.
  - destruct k as [|k]; [cbn; eauto|].
    cbn [passes] in P |- *.
    destruct (current_step f <? max_steps (self f))%Z; [|discriminate].
    destruct (body q f) as [f'|f'|v f'|e f']; try discriminate.
    apply (IH _ _ _ P). lia.
Qed.

(** The frame a run ends in. *)
Lemma run_end (a : ReActAgent G) (q : string) :
  exists o f,
    run a q = Some (o, f)
    /\ Z.of_nat (llm_calls (calls f)) = current_step f
    /\ (current_step f <= Z.max 0 (max_steps a))%Z
    /\ max_steps (self f) = max_steps a
    /\ (exists pairs, history (self f) = lines_of pairs)
    /\ exists fm,
         passes (llm_calls (calls f) - 1) q (enter a) = Some fm.
Proof.
  unfold run.
  destruct (while_total q (S (Z.to_nat (max_steps a))) (enter a)) as [[o f] W].
  { cbn. lia. }
  exists o, f. split; [exact W|].
  destruct (while_passes _ _ _ _ W) as (m & fm & P & D).
  destruct (passes_inv _ _ _ _ P) as (I1 & I2 & I3 & I4 & I5 & I6 & pairs & I7).
  cbn in I1, I2, I5, I6, I7.
  destruct D as [[Guard [= -> ->]]|[Guard St]].
  - apply Z.ltb_ge in Guard. rewrite I5.
    repeat split; try lia; try exact I2; try (now exists pairs).
    apply (passes_le q m _ fm); [exact P | lia].
  - apply Z.ltb_lt in Guard.
    pose proof (body_frame q fm) as B. pose proof (body_history q fm) as Hh.
    assert (E : f = frame_of (body q fm)
                /\ history (self f) = history (self fm)).
    { destruct (body q fm) as [f'|f'|v f'|e f']; cbn in St; [easy|..];
        injection St as -> ->; now split. }
    destruct E as [-> Eh]. cbn zeta in B.
    destruct B as (B1 & B2 & _ & _ & B5).
    rewrite B1, B2, B5, I5, Eh, I7.
    repeat split; try lia; try exact I2; try (now exists pairs).
    exists fm. now replace (S m - 1) with m by lia.
Qed.

End LoopFacts.

(** * The claims about the parsers *)

(** C2, as stated, fails: the pattern is anchored at the start of the text
    only, so text after the last closing bracket is ignored and the parse
    succeeds, where the grammar of the specification has both fields
    absent. *)
Lemma parse_action_ignores_trailing_text :
  chop_last "]" "Search[a]x" = None
  /\ spec_parseAction "Search[a]x" = (None, None)
  /\ _parse_action "Search[a]x" = (Some "Search", Some "a").
Proof. repeat split. Qed.

(** C2, amended: [_parse_action] succeeds exactly on the texts made of one
    or more word characters, an opening bracket, an argument without line
    feed, a closing bracket, and a tail whose first line has no closing
    bracket; the tool name is the leading word characters and the argument
    is what lies between the first opening bracket and the last closing
    bracket of that line.  In every other case both fields are absent. *)
Theorem parse_action_grammar (s : string) :
  (forall n a,
     _parse_action s = (Some n, Some a) <->
     exists t,
       s = n ++ "[" ++ a ++ "]" ++ t
       /\ n <> ""
       /\ Str.forallb is_word n = true
       /\ Str.mem Str.nl a = false
       /\ Str.mem "]" (Str.first_line t) = false)
  /\ (_parse_action s = (None, None)
      \/ exists n a, _parse_action s = (Some n, Some a)).
Proof.
  split.
  - intros n a. rewrite ToolFacts.parse_action_eq. split.
    + destruct (Str.take_while is_word s) as [|c n'] eqn:Tw; [discriminate|].
      destruct (chop "[" (Str.drop_while is_word s)) as [r|] eqn:C;
        [|discriminate].
      destruct (last_bracket r) as [[a' t]|] eqn:L; [|discriminate].
      intros [= <- <-]. exists t.
      destruct (BracketFacts.last_bracket_split _ _ _ L) as (-> & Ha & Ht).
      apply StrFacts.chop_Some in C.
      repeat split; try assumption; try discriminate.
      * rewrite <- (StrFacts.take_drop_while is_word s) at 1.
        now rewrite Tw, C.
      * rewrite <- Tw. apply StrFacts.forallb_take_while.
    + intros (t & -> & Hn & Hw & Ha & Ht).
      rewrite <- ToolFacts.parse_action_eq.
      now apply ToolFacts.parse_action_join.
  - rewrite ToolFacts.parse_action_eq.
    destruct (Str.take_while is_word s) as [|c n']; [now left|].
    destruct (chop "[" (Str.drop_while is_word s)) as [r|]; [|now left].
    destruct (last_bracket r) as [[a t]|]; [|now left].
    right. now exists (String c n'), a.
Qed.

(** C5, as stated, fails: the patterns are searched for anywhere in the
    text, so a prefix in the middle of a line is recognised although no
    line starts with it. *)
Lemma parse_output_matches_inside_a_line :
  existsb (fun l => Str.startswith l "Action: ")
    (Str.lines "Next Action: Bar[baz]") = false
  /\ spec_parseOutput "Next Action: Bar[baz]" = (None, None)
  /\ _parse_output "Next Action: Bar[baz]" = (None, Some "Bar[baz]").
Proof. repeat split. Qed.

(** C5, amended: each field of [_parse_output] is read at the leftmost
    occurrence of its prefix in the text, wherever in a line that is: it
    is what follows the prefix up to the next line feed, stripped; later
    occurrences play no part; the field is absent exactly when the text
    does not contain the prefix. *)
Theorem parse_output_leftmost (text : string) :
  field_of "Thought: " text (fst (_parse_output text))
  /\ field_of "Action: " text (snd (_parse_output text)).
Proof.
  rewrite ReFacts.parse_output_scan. cbn [fst snd].
  split; apply ScanFacts.scan_field_of.
Qed.

(** ** The treatment of a response *)

Section ResponseFacts.

Context {G : Type} `{LLMClient G}.

Import StrFacts.

Lemma parse_output_Some (r action : string) :
  snd (_parse_output r) = Some action -> r <> "".
Proof. intros P ->. discriminate P. Qed.

Lemma if_truthy_Some (s : string) : s <> "" -> if_truthy (Some s) = Some s.
Proof. now destruct s. Qed.

(** A response with a non-empty action hands that action to [act]. *)
Lemma body_act (q : string) (f : frame G) (r : string) (g : G) (action : string) :
  think (llm_client (self f)) (request q f) = (Some r, g) ->
  snd (_parse_output r) = Some action ->
  action <> "" ->
  body q f = act action (answered q f g).
Proof.
  intros T P N. rewrite body_eq, T.
  rewrite (if_truthy_Some r (parse_output_Some _ _ P)), P.
  now rewrite (if_truthy_Some action N).
Qed.

(** A missing or empty response ends the run. *)
Lemma body_no_response (q : string) (f : frame G) (r : option string) (g : G) :
  think (llm_client (self f)) (request q f) = (r, g) ->
  if_truthy r = None ->
  body q f = Break (answered q f g).
Proof. intros T N. now rewrite body_eq, T, N. Qed.

(** A tool call with a non-empty input reaches the lookup. *)
Lemma act_lookup (action name input : string) (f : frame G) :
  Str.startswith action "Finish" = false ->
  _parse_action action = (Some name, Some input) ->
  input <> "" ->
  act action f
  = Continue
      {| self :=
           set_history (self f)
             (history (self f)
              ++ [action_line action;
                  observation_line
                    match getTool (tool_executor (self f)) name with
                    | None => unknown_tool_pre ++ name ++ unknown_tool_post
                    | Some tool => tool input
                    end])%list;
         current_step := current_step f;
         calls :=
           match getTool (tool_executor (self f)) name with
           | None => calls f
           | Some tool => (calls f ++ [ToolCall name input])%list
           end |}.
Proof.
  intros S P N. unfold act. rewrite S, P.
  destruct (ToolFacts.parse_action_Some _ _ _ P) as [Nn _].
  rewrite (if_truthy_Some name Nn), (if_truthy_Some input N).
  now destruct (getTool (tool_executor (self f)) name).
Qed.

(** An action that is no final answer and has no tool name or no input is
    passed over. *)
Lemma act_skip (action : string) (f : frame G) :
  Str.startswith action "Finish" = false ->
  if_truthy (fst (_parse_action action)) = None
  \/ if_truthy (snd (_parse_action action)) = None ->
  act action f = Continue f.
Proof.
  intros S N. unfold act. rewrite S.
  destruct (_parse_action action) as [n i]. cbn [fst snd] in N.
  destruct N as [-> | N]; [reflexivity|].
  rewrite N. now destruct (if_truthy n).
Qed.

Lemma act_with_llm (action : string) (f : frame G) (g : G) :
  act action (with_llm f g) = map_flow (fun f' => with_llm f' g) (act action f).
Proof.
  unfold act. destruct (Str.startswith action "Finish").
  - now destruct (re_match finish_re action).
  - destruct (_parse_action action) as [n i].
    destruct (if_truthy n) as [n'|]; [|reflexivity].
    destruct (if_truthy i) as [i'|]; [|reflexivity].
    cbn [with_llm self set_llm_client tool_executor].
    now destruct (getTool (tool_executor (self f)) n').
Qed.

(** The final answer, for a payload without line feed. *)
Lemma act_finish (p : string) (f : frame G) :
  Str.mem Str.nl p = false ->
  act ("Finish[" ++ p ++ "]") f = Return p f.
Proof.
  intros M. unfold act.
  change (Str.startswith ("Finish[" ++ p ++ "]") "Finish") with true.
  rewrite BracketFacts.re_match_finish.
  change (chop "Finish[" ("Finish[" ++ p ++ "]")) with (Some (p ++ "]")).
  cbv iota beta.
  now rewrite (BracketFacts.last_bracket_join p "" M eq_refl).
Qed.

(** The action of a response made of a thought line and an action line. *)
Lemma parse_output_finish (t p : string) :
  Str.contains "Action: " t = false ->
  Str.mem Str.nl p = false ->
  snd (_parse_output (reply t ("Finish[" ++ p ++ "]")))
  = Some ("Finish[" ++ p ++ "]").
Proof.
  intros C M. rewrite ReFacts.parse_output_scan. cbn [snd].
  unfold scan, reply.
  change (Str.after_first "Action: "
            ("Thought: " ++ t ++ lf ++ "Action: " ++ "Finish[" ++ p ++ "]"))
    with (Str.after_first "Action: "
            (t ++ String Str.nl ("Action: " ++ "Finish[" ++ p ++ "]"))).
  rewrite (after_first_skip_line "Action: " t _ eq_refl C).
  change (Str.after_first "Action: " ("Action: " ++ "Finish[" ++ p ++ "]"))
    with (Some ("Finish[" ++ p ++ "]")).
  cbn [option_map]. f_equal.
  rewrite first_line_no_nl.
  - change ("Finish[" ++ p ++ "]")
      with (String "F" ("inish[" ++ p ++ String "]" "")).
    rewrite <- append_assoc. now apply strip_fixed.
  - cbn. clear C. induction p as [|c p IH]; [reflexivity|].
    cbn [Str.mem append] in M |- *.
    apply orb_false_iff in M as [Mc M]. now rewrite Mc, (IH M).
Qed.

End ResponseFacts.

(** * The claims about the loop *)

(** C1: the code raises.  A response whose action is the bare word
    [Finish] passes the [startswith] test; the pattern of the final answer
    does not match it, and [.group(1)] is then taken of [None]. *)
Theorem run_raises_on_finish_without_payload :
  snd (_parse_output (reply "done" "Finish")) = Some "Finish"
  /\ re_match finish_re "Finish" = None
  /\ option_map fst (run (agent 5 [Some (reply "done" "Finish")]) "q")
     = Some (Raised AttributeError).
Proof. repeat split. Qed.

(** C4, as stated, fails: with the registered tool [Search], the action
    [Search[]] parses into the name and the empty input, and the step
    neither calls the tool nor writes to the history. *)
Lemma empty_argument_is_not_dispatched :
  _parse_action "Search[]" = (Some "Search", Some "")
  /\ (exists tool, getTool one_tool "Search" = Some tool)
  /\ exists f,
       run (agent 1 [Some (reply "t" "Search[]")]) "q" = Some (Returned None, f)
       /\ history (self f) = []
       /\ tool_calls (calls f) = []
       /\ llm_calls (calls f) = 1.
Proof.
  split; [reflexivity|]. split; [now exists search|].
  eexists. split; [vm_compute; reflexivity|]. repeat split.
Qed.

(** C4, amended: for an action made of a tool name and an empty pair of
    brackets, [_parse_action] yields the name and the empty string, both
    present; the test on the parsed fields treats the empty input like an
    absent one, whether or not the tool is registered: the step is used
    up, no tool is called and the history is left as it is. *)
Theorem empty_argument_is_skipped {G : Type} `{LLMClient G}
    (q : string) (f : frame G) (r : string) (g : G) (name : string) :
  think (llm_client (self f)) (request q f) = (Some r, g) ->
  snd (_parse_output r) = Some (name ++ "[]") ->
  name <> "" ->
  Str.forallb is_word name = true ->
  Str.startswith (name ++ "[]") "Finish" = false ->
  _parse_action (name ++ "[]") = (Some name, Some "")
  /\ exists f',
       body q f = Continue f'
       /\ current_step f' = (current_step f + 1)%Z
       /\ history (self f') = history (self f)
       /\ tool_calls (calls f') = tool_calls (calls f).
Proof.
  intros T P Nn W S.
  assert (E : _parse_action (name ++ "[]") = (Some name, Some "")).
  { exact (ToolFacts.parse_action_join name "" "" Nn W eq_refl eq_refl). }
  split; [exact E|]. exists (answered q f g).
  rewrite (body_act q f r g _ T P) by now destruct name.
  rewrite (act_skip _ _ S) by (right; now rewrite E).
  repeat split. apply tool_calls_answered.
Qed.

Lemma empty_argument_is_skipped_witness :
  _parse_action ("Search" ++ "[]") = (Some "Search", Some "")
  /\ exists f',
       body "q" (enter (agent 5 [Some (reply "t" "Search[]")])) = Continue f'
       /\ current_step f' = 1%Z
       /\ history (self f') = []
       /\ tool_calls (calls f') = [].
Proof.
  apply (empty_argument_is_skipped "q"
           (enter (agent 5 [Some (reply "t" "Search[]")]))
           (reply "t" "Search[]") [] "Search").
  - reflexivity.
  - reflexivity.
  - discriminate.
  - reflexivity.
  - reflexivity.
Defined.

(** C9, as stated, fails: an action may parse into the name of a tool
    that is not registered and still leave no trace.  With the empty
    argument the test on the parsed fields passes the step over: the
    step counter grows, the history does not. *)
Lemma unknown_tool_with_empty_argument :
  _parse_action "Lookup[]" = (Some "Lookup", Some "")
  /\ getTool one_tool "Lookup" = None
  /\ exists f,
       run (agent 1 [Some (reply "t" "Lookup[]")]) "q" = Some (Returned None, f)
       /\ history (self f) = []
       /\ current_step f = 1%Z.
Proof.
  split; [reflexivity|]. split; [reflexivity|].
  eexists. split; [vm_compute; reflexivity|]. repeat split.
Qed.

(** C9, amended: when the action of a step does not start with [Finish]
    and parses into a tool name and a non-empty input, and no tool has
    that name, the pass goes on to the next iteration; the observation is
    the fixed error text around the tool name; the history grows by
    exactly two lines, the text [Action: ] followed by the action and the
    text [Observation: ] followed by that observation, and the second
    line contains the tool name; the step counter grows by exactly 1 and
    no tool is called. *)
Theorem unknown_tool_is_recorded {G : Type} `{LLMClient G}
    (q : string) (f : frame G) (r : string) (g : G)
    (action name input : string) :
  think (llm_client (self f)) (request q f) = (Some r, g) ->
  snd (_parse_output r) = Some action ->
  Str.startswith action "Finish" = false ->
  _parse_action action = (Some name, Some input) ->
  input <> "" ->
  getTool (tool_executor (self f)) name = None ->
  exists f' observation,
    body q f = Continue f'
    /\ observation = "错误:未找到名为 '" ++ name ++ "' 的工具。"
    /\ Str.contains name observation = true
    /\ Str.contains name ("Observation: " ++ observation) = true
    /\ history (self f')
       = (history (self f)
          ++ [("Action: " ++ action)%string;
              ("Observation: " ++ observation)%string])%list
    /\ List.length (history (self f')) = List.length (history (self f)) + 2
    /\ current_step f' = (current_step f + 1)%Z
    /\ tool_calls (calls f') = tool_calls (calls f).
Proof.
  intros T P S A Ni U.
  destruct (ToolFacts.parse_action_Some _ _ _ A) as [_ Na].
  rewrite (body_act q f r g action T P Na).
  rewrite (act_lookup action name input _ S A Ni).
  cbn [answered self set_llm_client tool_executor history]. rewrite U.
  eexists. exists ("错误:未找到名为 '" ++ name ++ "' 的工具。").
  split; [reflexivity|]. cbn [self set_history history current_step calls].
  split; [reflexivity|]. split; [apply StrFacts.contains_append|].
  split.
  { change ("Observation: " ++ "错误:未找到名为 '" ++ name ++ "' 的工具。")
      with (("Observation: " ++ "错误:未找到名为 '") ++ name ++ "' 的工具。").
    apply StrFacts.contains_append. }
  split; [reflexivity|]. split; [rewrite length_app; reflexivity|].
  split; [reflexivity | apply tool_calls_answered].
Qed.

Lemma unknown_tool_is_recorded_witness :
  exists f' observation,
    body "q" (enter (agent 5 [Some (reply "t" "Lookup[x]")])) = Continue f'
    /\ observation = "错误:未找到名为 '" ++ "Lookup" ++ "' 的工具。"
    /\ Str.contains "Lookup" observation = true
    /\ Str.contains "Lookup" ("Observation: " ++ observation) = true
    /\ history (self f')
       = ([] ++ [("Action: " ++ "Lookup[x]")%string;
                 ("Observation: " ++ observation)%string])%list
    /\ List.length (history (self f')) = 0 + 2
    /\ current_step f' = (0 + 1)%Z
    /\ tool_calls (calls f') = [].
Proof.
  apply (unknown_tool_is_recorded "q"
           (enter (agent 5 [Some (reply "t" "Lookup[x]")]))
           (reply "t" "Lookup[x]") [] "Lookup[x]" "Lookup" "x").
  - reflexivity.
  - reflexivity.
  - reflexivity.
  - reflexivity.
  - discriminate.
  - reflexivity.
Defined.

(** C10: an empty response is treated as a failed call.  Whether the
    generator returns [None] or the empty string, the pass breaks out of
    the loop in the same frame, the run returns no answer, and the
    history is the one before the step. *)
Theorem empty_response_aborts {G : Type} `{LLMClient G}
    (q : string) (f : frame G) (r : option string) (g : G) :
  think (llm_client (self f)) (request q f) = (r, g) ->
  r = Some "" \/ r = None ->
  (current_step f < max_steps (self f))%Z ->
  body q f = Break (answered q f g)
  /\ history (self (answered q f g)) = history (self f)
  /\ tool_calls (calls (answered q f g)) = tool_calls (calls f)
  /\ forall fuel, while (S fuel) q f = Some (Returned None, answered q f g).
Proof.
  intros T E Guard.
  assert (B : body q f = Break (answered q f g)).
  { apply (body_no_response q f r g T). now destruct E as [-> | ->]. }
  repeat split; [exact B| |].
  - apply tool_calls_answered.
  - intros fuel. cbn [while]. apply Z.ltb_lt in Guard. now rewrite Guard, B.
Qed.

Lemma empty_response_aborts_witness :
  let f := enter (agent 5 [Some ""; Some (reply "t" "Finish[42]")]) in
  let g := [Some (reply "t" "Finish[42]")] in
  body "q" f = Break (answered "q" f g)
  /\ history (self (answered "q" f g)) = history (self f)
  /\ tool_calls (calls (answered "q" f g)) = tool_calls (calls f)
  /\ forall fuel, while (S fuel) "q" f = Some (Returned None, answered "q" f g).
Proof.
  apply (empty_response_aborts "q"
           (enter (agent 5 [Some ""; Some (reply "t" "Finish[42]")]))
           (Some "") [Some (reply "t" "Finish[42]")]).
  - reflexivity.
  - left. reflexivity.
  - reflexivity.
Defined.

(** C7: with [max_steps = n > 0], [run] returns or raises after at most
    [n] calls to the generator; the step counter equals the number of
    calls made so far at every turn of the loop and never exceeds [n];
    and when [n] calls were made, the first [n - 1] passes all went on to
    the next iteration, none of them ending the run. *)
Theorem run_bounded {G : Type} `{LLMClient G} (a : ReActAgent G) (q : string) :
  (0 < max_steps a)%Z ->
  exists o f,
    run a q = Some (o, f)
    /\ (Z.of_nat (llm_calls (calls f)) <= max_steps a)%Z
    /\ current_step f = Z.of_nat (llm_calls (calls f))
    /\ (forall m fm,
          passes m q (enter a) = Some fm ->
          (current_step fm <= max_steps a)%Z
          /\ current_step fm = Z.of_nat (llm_calls (calls fm)))
    /\ (Z.of_nat (llm_calls (calls f)) = max_steps a ->
        exists fm, passes (Z.to_nat (max_steps a) - 1) q (enter a) = Some fm).
Proof.
  intros Pos.
  destruct (run_end a q) as (o & f & R & E1 & E2 & _ & _ & fm & P).
  exists o, f.
  split; [exact R|]. split; [lia|]. split; [lia|]. split.
  - intros m fm' P'.
    destruct (passes_inv _ _ _ _ P') as (I1 & _ & _ & _ & I5 & I6 & _).
    cbn in I1, I5, I6. split; [|lia].
    destruct m; [lia|]. apply I6. lia.
  - intros En. exists fm.
    now replace (Z.to_nat (max_steps a) - 1) with (llm_calls (calls f) - 1)
      by lia.
Qed.

Lemma run_bounded_witness :
  let a := agent 2 [Some (reply "t" "Search[x]"); Some (reply "t" "Search[y]");
                    Some (reply "t" "Finish[42]")] in
  exists o f,
    run a "q" = Some (o, f)
    /\ (Z.of_nat (llm_calls (calls f)) <= max_steps a)%Z
    /\ current_step f = Z.of_nat (llm_calls (calls f))
    /\ (forall m fm,
          passes m "q" (enter a) = Some fm ->
          (current_step fm <= max_steps a)%Z
          /\ current_step fm = Z.of_nat (llm_calls (calls fm)))
    /\ (Z.of_nat (llm_calls (calls f)) = max_steps a ->
        exists fm, passes (Z.to_nat (max_steps a) - 1) "q" (enter a) = Some fm).
Proof.
  apply (run_bounded
           (agent 2 [Some (reply "t" "Search[x]"); Some (reply "t" "Search[y]");
                     Some (reply "t" "Finish[42]")]) "q").
  reflexivity.
Defined.

Section HistoryFacts.

Context {G : Type} `{LLMClient G}.

Lemma if_truthy_elim (o : option string) (x : string) :
  if_truthy o = Some x -> o = Some x.
Proof. destruct o as [[|c s]|]; cbn; try discriminate. now intros [= <-]. Qed.

(** The two lines a pass appends, spelled out. *)
Lemma body_appends (q : string) (f : frame G) :
  match body q f with
  | Continue f' =>
      history (self f') = history (self f) \/
      exists r action name input,
        fst (think (llm_client (self f)) (request q f)) = Some r
        /\ snd (_parse_output r) = Some action
        /\ _parse_action action = (Some name, Some input)
        /\ history (self f')
           = (history (self f)
              ++ [("Action: " ++ action)%string;
                  ("Observation: "
                   ++ match getTool (tool_executor (self f)) name with
                      | Some tool => tool input
                      | None => "错误:未找到名为 '" ++ name ++ "' 的工具。"
                      end)%string])%list
  | fl => history (self (frame_of fl)) = history (self f)
  end.
Proof.
  rewrite body_eq. destruct (think _ _) as [r g] eqn:T.
  destruct (if_truthy r) as [r'|] eqn:Tr; [|reflexivity].
  destruct (if_truthy (snd (_parse_output r'))) as [action|] eqn:Ta;
    [|reflexivity].
  apply if_truthy_elim in Tr as ->. apply if_truthy_elim in Ta.
  unfold act. destruct (Str.startswith action "Finish").
  - now destruct (re_match finish_re action).
  - destruct (_parse_action action) as [n i] eqn:P.
    destruct (if_truthy n) as [n'|] eqn:Tn; [|now left].
    destruct (if_truthy i) as [i'|] eqn:Ti; [|now left].
    apply if_truthy_elim in Tn as ->. apply if_truthy_elim in Ti as ->.
    cbn [answered self set_llm_client tool_executor history].
    destruct (getTool (tool_executor (self f)) n') eqn:Et;
      right; exists r', action, n', i';
      cbn [self set_history history fst]; rewrite ?Et; now repeat split.
Qed.

End HistoryFacts.

(** C8: [run] starts from the empty history whatever the agent held
    before, so a second run on the same agent behaves as on a fresh
    history; a pass through the loop leaves the history as it is or
    appends two lines, the text [Action: ] followed by the action parsed
    from the response of the step and the text [Observation: ] followed
    by the result of the tool (or by the error text for a tool that is
    not registered), in that order, and only when it goes on to the next
    iteration; an action that does not parse appends nothing; so at every
    turn of the loop and at the end of the run the history is a sequence
    of such pairs of lines, of even length. *)
Theorem history_discipline {G : Type} `{LLMClient G}
    (a : ReActAgent G) (q : string) :
  history (self (enter a)) = []
  /\ (forall h, run (set_history a h) q = run a q)
  /\ (forall f,
        match body q f with
        | Continue f' =>
            history (self f') = history (self f) \/
            exists r action name input,
              fst (think (llm_client (self f)) (request q f)) = Some r
              /\ snd (_parse_output r) = Some action
              /\ _parse_action action = (Some name, Some input)
              /\ history (self f')
                 = (history (self f)
                    ++ [("Action: " ++ action)%string;
                        ("Observation: "
                         ++ match getTool (tool_executor (self f)) name with
                            | Some tool => tool input
                            | None =>
                                "错误:未找到名为 '" ++ name ++ "' 的工具。"
                            end)%string])%list
        | fl => history (self (frame_of fl)) = history (self f)
        end)
  /\ (forall action (f : frame G),
        Str.startswith action "Finish" = false ->
        _parse_action action = (None, None) ->
        act action f = Continue f)
  /\ (forall m fm,
        passes m q (enter a) = Some fm ->
        exists pairs,
          history (self fm)
          = flat_map (fun p => ["Action: " ++ fst p; "Observation: " ++ snd p])
              pairs
          /\ List.length (history (self fm)) = 2 * List.length pairs)
  /\ exists o f,
       run a q = Some (o, f)
       /\ (exists pairs,
             history (self f)
             = flat_map
                 (fun p => ["Action: " ++ fst p; "Observation: " ++ snd p])
                 pairs
             /\ List.length (history (self f)) = 2 * List.length pairs)
       /\ forall q', run (self f) q' = run (set_history (self f) []) q'.
Proof.
  assert (Even : forall pairs, List.length (lines_of pairs) = 2 * List.length pairs).
  { induction pairs as [|p pairs IH]; [reflexivity|].
    cbn [lines_of flat_map app List.length] in *. unfold lines_of in IH.
    rewrite IH. lia. }
  split; [reflexivity|]. split; [reflexivity|].
  split; [intros f; apply body_appends|].
  split.
  { intros action f S P. apply (act_skip action f S). left. now rewrite P. }
  split.
  { intros m fm P.
    destruct (passes_inv _ _ _ _ P) as (_ & _ & _ & _ & _ & _ & pairs & I7).
    exists pairs. cbn in I7. rewrite I7. split; [reflexivity | apply Even]. }
  destruct (run_end a q) as (o & f & R & _ & _ & _ & (pairs & Eh) & _).
  exists o, f. split; [exact R|]. split; [|reflexivity].
  exists pairs. rewrite Eh. split; [reflexivity | apply Even].
Qed.

(** ** Runs on canned responses *)

Module ScriptFacts.

(** A response that dispatches a registered tool takes the loop to the
    next iteration, with one more pair of lines in the history. *)
Lemma dispatch_pass (q : string) (f : frame (list (option string))) (r : string) (rest : list (option string)) :
  llm_client (self f) = Some r :: rest ->
  dispatches (tool_executor (self f)) r ->
  exists f',
    body q f = Continue f'
    /\ llm_client (self f') = rest
    /\ current_step f' = (current_step f + 1)%Z
    /\ max_steps (self f') = max_steps (self f)
    /\ tool_executor (self f') = tool_executor (self f)
    /\ List.length (history (self f')) = List.length (history (self f)) + 2
    /\ llm_calls (calls f') = S (llm_calls (calls f)).
Proof.
  intros L (action & name & input & tool & P & Sw & A & Ni & T).
  destruct (ToolFacts.parse_action_Some _ _ _ A) as [_ Na].
  assert (Th : think (llm_client (self f)) (request q f) = (Some r, rest))
    by now rewrite L.
  rewrite (body_act q f r rest action Th P Na).
  rewrite (act_lookup action name input _ Sw A Ni).
  cbn [answered self set_llm_client tool_executor history]. rewrite T.
  eexists. split; [reflexivity|].
  cbn [self set_history llm_client history current_step calls max_steps
       tool_executor].
  repeat split.
  - rewrite length_app. reflexivity.
  - rewrite llm_calls_tool. unfold answered. cbn [calls].
    apply llm_calls_llm.
Qed.

(** The response with the final answer ends the run with its payload. *)
Lemma finish_pass (q : string) (f : frame (list (option string))) (p : string) (rest : list (option string)) :
  llm_client (self f) = Some (reply "t" ("Finish[" ++ p ++ "]")) :: rest ->
  Str.mem Str.nl p = false ->
  body q f = Return p (answered q f rest).
Proof.
  intros L M.
  assert (Th : think (llm_client (self f)) (request q f)
               = (Some (reply "t" ("Finish[" ++ p ++ "]")), rest))
    by now rewrite L.
  rewrite (body_act q f _ rest _ Th (parse_output_finish "t" p eq_refl M))
    by discriminate.
  now apply act_finish.
Qed.

Lemma while_finish (q p : string) (rest : list (option string)) (te : ToolExecutor)
    (pre : list string) :
  Str.mem Str.nl p = false ->
  Forall (dispatches te) pre ->
  forall (fuel : nat) (f : frame (list (option string))),
    llm_client (self f)
    = (map Some pre ++ Some (reply "t" ("Finish[" ++ p ++ "]")) :: rest)%list ->
    tool_executor (self f) = te ->
    List.length pre < fuel ->
    (current_step f + Z.of_nat (S (List.length pre)) <= max_steps (self f))%Z ->
    exists f',
      while fuel q f = Some (Returned (Some p), f')
      /\ llm_calls (calls f') = llm_calls (calls f) + S (List.length pre)
      /\ List.length (history (self f'))
         = List.length (history (self f)) + 2 * List.length pre
      /\ current_step f' = (current_step f + Z.of_nat (S (List.length pre)))%Z
      /\ llm_client (self f') = rest.
Proof.
  intros M D. induction D as [|r pre Dr D IH]; intros fuel f L Te Hf Hs;
    (destruct fuel as [|fuel]; [cbn in Hf; lia|]); cbn [while].
  - cbn [List.length] in Hs.
    replace (current_step f <? max_steps (self f))%Z with true
      by (symmetry; apply Z.ltb_lt; lia).
    rewrite (finish_pass q f p rest L M).
    eexists. split; [reflexivity|].
    cbn [answered self set_llm_client llm_client history current_step calls
         List.length].
    rewrite llm_calls_llm. repeat split; lia.
  - cbn [List.length] in Hs, Hf.
    replace (current_step f <? max_steps (self f))%Z with true
      by (symmetry; apply Z.ltb_lt; lia).
    rewrite <- Te in Dr.
    destruct (dispatch_pass q f r _ L Dr)
      as (f1 & B & L1 & S1 & M1 & T1 & H1 & C1).
    rewrite B.
    destruct (IH fuel f1 L1) as (f' & W & C' & H' & S' & L');
      [congruence | lia | rewrite S1, M1; lia |].
    exists f'. split; [exact W|].
    cbn [List.length]. repeat split; try lia. exact L'.
Qed.

End ScriptFacts.

(** C6: when the first [k - 1] canned responses each dispatch a registered
    tool and the [k]-th is a thought line followed by the action line of
    the final answer, with [k <= max_steps], [run] returns the payload of
    that answer as it stands, after exactly [k] calls to the generator and
    with [2 * (k - 1)] lines in the history.  The payload [42] of the
    claim is one instance. *)
Theorem finish_at_step_k (a : ReActAgent (list (option string)))
    (q : string) (pre : list string) (p : string)
    (rest : list (option string)) :
  llm_client a
  = (map Some pre ++ Some (reply "t" ("Finish[" ++ p ++ "]")) :: rest)%list ->
  Forall (dispatches (tool_executor a)) pre ->
  Str.mem Str.nl p = false ->
  (Z.of_nat (S (List.length pre)) <= max_steps a)%Z ->
  exists f,
    run a q = Some (Returned (Some p), f)
    /\ llm_calls (calls f) = S (List.length pre)
    /\ List.length (history (self f)) = 2 * (S (List.length pre) - 1)
    /\ current_step f = Z.of_nat (S (List.length pre)).
Proof.
  intros L D M K. unfold run.
  destruct (ScriptFacts.while_finish q p rest (tool_executor a) pre M D
              (S (Z.to_nat (max_steps a))) (enter a))
    as (f & W & C & Hh & S' & _).
  - exact L.
  - reflexivity.
  - lia.
  - cbn [enter current_step self set_history max_steps]. lia.
  - exists f. split; [exact W|].
    cbn [enter calls self set_history history current_step List.length]
      in C, Hh, S'.
    change (llm_calls []) with 0 in C. repeat split; lia.
Qed.

Lemma finish_at_step_k_witness :
  exists f,
    run (agent 5 [Some (reply "a" "Search[x]"); Some (reply "b" "Search[y]");
                  Some (reply "t" "Finish[42]")]) "q"
    = Some (Returned (Some "42"), f)
    /\ llm_calls (calls f) = 3
    /\ List.length (history (self f)) = 2 * (3 - 1)
    /\ current_step f = 3%Z.
Proof.
  apply (finish_at_step_k
           (agent 5 [Some (reply "a" "Search[x]"); Some (reply "b" "Search[y]");
                     Some (reply "t" "Finish[42]")])
           "q" [reply "a" "Search[x]"; reply "b" "Search[y]"] "42" []).
  - reflexivity.
  - repeat constructor.
    + exists "Search[x]", "Search", "x", search.
      repeat split; discriminate.
    + exists "Search[y]", "Search", "y", search.
      repeat split; discriminate.
  - reflexivity.
  - cbn. lia.
Defined.

(** ** More on strings *)

Module MoreStrFacts.

Import StrFacts.

Lemma append_cancel_l (a b c : string) : a ++ b = a ++ c -> b = c.
Proof.
  induction a as [|x a IH]; cbn [append]; intros E; [exact E|].
  injection E as E. now apply IH.
Qed.

Lemma contains_false_after_first (p s : string) :
  Str.contains p s = false -> Str.after_first p s = None.
Proof.
  induction s as [|c s IH]; cbn [Str.contains Str.after_first]; intros C;
    apply orb_false_iff in C as [P C]; rewrite P; [reflexivity | now apply IH].
Qed.

Lemma after_first_None_contains (p s : string) :
  Str.after_first p s = None -> Str.contains p s = false.
Proof.
  induction s as [|c s IH]; cbn [Str.contains Str.after_first];
    destruct (String.prefix p _); try discriminate; [reflexivity|].
  intros A. now rewrite (IH A).
Qed.

(** The leftmost occurrence is the one [after_first] finds. *)
Lemma after_first_leftmost (p s pre rest : string) :
  leftmost p s pre rest -> Str.after_first p s = Some rest.
Proof.
  intros [E Hmin].
  destruct (Str.after_first p s) as [r|] eqn:A.
  - destruct (ScanFacts.after_first_Some _ _ _ A) as (pre0 & E0 & Hmin0).
    assert (L1 : String.length pre0 <= String.length pre)
      by now apply (Hmin0 _ rest).
    assert (L2 : String.length pre <= String.length pre0)
      by now apply (Hmin _ r).
    assert (Epre : pre = pre0).
    { rewrite <- (take_append pre (p ++ rest)).
      rewrite <- (take_append pre0 (p ++ r)).
      rewrite <- E, <- E0. f_equal. lia. }
    subst pre0. rewrite E in E0.
    apply append_cancel_l in E0. apply append_cancel_l in E0. now subst.
  - exfalso. now apply (ScanFacts.after_first_None _ _ A pre rest).
Qed.

Lemma lstrip_blank (s : string) :
  Str.forallb Str.is_space s = true -> Str.lstrip s = "".
Proof.
  induction s as [|c s IH]; [reflexivity|]. cbn [Str.forallb Str.lstrip].
  intros B. apply andb_true_iff in B as [Bc B]. now rewrite Bc, (IH B).
Qed.

Lemma rstrip_empty (s : string) :
  Str.rstrip s = "" -> Str.forallb Str.is_space s = true.
Proof.
  induction s as [|c s IH]; [reflexivity|]. cbn [Str.rstrip Str.forallb].
  destruct (Str.rstrip s) as [|x r]; [|discriminate].
  destruct (Str.is_space c); [|discriminate]. intros _. now apply IH.
Qed.

Lemma lstrip_spaces (s : string) :
  Str.forallb Str.is_space (Str.lstrip s) = true ->
  Str.forallb Str.is_space s = true.
Proof.
  induction s as [|c s IH]; [reflexivity|]. cbn [Str.lstrip].
  destruct (Str.is_space c) eqn:Ec; [|exact (fun B => B)].
  intros B. cbn [Str.forallb]. now rewrite Ec, (IH B).
Qed.

(** [strip] leaves nothing exactly of the texts made of white space. *)
Lemma strip_empty_iff (s : string) :
  Str.strip s = "" <-> Str.forallb Str.is_space s = true.
Proof.
  unfold Str.strip. split.
  - intros E. apply lstrip_spaces. now apply rstrip_empty.
  - intros B. now rewrite (lstrip_blank _ B).
Qed.

Lemma first_line_append_nl (t x : string) :
  Str.first_line (t ++ String Str.nl x) = Str.first_line t.
Proof.
  unfold Str.first_line. induction t as [|c t IH]; [reflexivity|].
  cbn [append Str.take_while]. destruct (negb (Ascii.eqb c Str.nl));
    [now rewrite IH | reflexivity].
Qed.

Lemma prefix_append_r (p n x : string) :
  String.prefix p n = true -> String.prefix p (n ++ x) = true.
Proof.
  intros P. apply prefix_chop in P as [r C]. apply chop_Some in C as ->.
  rewrite append_assoc. apply prefix_append.
Qed.

Lemma after_first_here (p x : string) :
  Str.after_first p (p ++ x) = Some x.
Proof.
  assert (E : forall s, String.prefix p s = true ->
                        Str.after_first p s
                        = Some (Str.drop (String.length p) s)).
  { intros s P. destruct s; cbn [Str.after_first]; now rewrite P. }
  now rewrite (E _ (prefix_append p x)), drop_append.
Qed.

Lemma after_first_prefix (p s : string) :
  String.prefix p s = true ->
  Str.after_first p s = Some (Str.drop (String.length p) s).
Proof. intros P. destruct s; cbn [Str.after_first]; now rewrite P. Qed.

Lemma drop_prefix_append (p s y : string) :
  String.prefix p s = true ->
  Str.drop (String.length p) (s ++ y) = Str.drop (String.length p) s ++ y.
Proof.
  intros P. apply prefix_chop in P as [r C]. apply chop_Some in C as ->.
  now rewrite append_assoc, !drop_append.
Qed.

Lemma mem_append (c : ascii) (a b : string) :
  Str.mem c (a ++ b) = Str.mem c a || Str.mem c b.
Proof.
  induction a as [|x a IH]; [reflexivity|]. cbn [append Str.mem].
  now rewrite IH, orb_assoc.
Qed.

End MoreStrFacts.

(** ** Runs that differ in the thoughts only *)

Module ThoughtFacts.

Import StrFacts.

Lemma lines_nonempty (s : string) : Str.lines s <> [].
Proof.
  induction s as [|c s IH]; cbn [Str.lines]; [discriminate|].
  destruct (Ascii.eqb c Str.nl); [discriminate|].
  now destruct (Str.lines s).
Qed.

(** A text is its lines joined by line feeds. *)
Lemma join_lines (s : string) : Str.join lf (Str.lines s) = s.
Proof.
  induction s as [|c s IH]; [reflexivity|]. cbn [Str.lines].
  destruct (Ascii.eqb c Str.nl) eqn:E.
  - apply Ascii.eqb_eq in E as ->.
    pose proof (lines_nonempty s) as N.
    destruct (Str.lines s) as [|l ls]; [contradiction|].
    change (Str.join lf ("" :: l :: ls)) with (String Str.nl (Str.join lf (l :: ls))).
    now rewrite IH.
  - pose proof (lines_nonempty s) as N.
    destruct (Str.lines s) as [|l ls]; [contradiction|].
    destruct ls as [|l' ls].
    + cbn [Str.join] in IH |- *. now rewrite IH.
    + change (Str.join lf (String c l :: l' :: ls))
        with (String c (Str.join lf (l :: l' :: ls))).
      now rewrite IH.
Qed.

(** An occurrence found in a line is still the leftmost one when more
    lines follow. *)
Lemma after_first_keep (p l r x : string) :
  Str.mem Str.nl p = false ->
  Str.after_first p l = Some r ->
  Str.after_first p (l ++ String Str.nl x) = Some (r ++ String Str.nl x).
Proof.
  intros M.
  assert (Here : forall s, String.prefix p s = true ->
            Str.after_first p (s ++ String Str.nl x)
            = Some (Str.drop (String.length p) s ++ String Str.nl x)).
  { intros s P.
    rewrite (MoreStrFacts.after_first_prefix _ _
               (MoreStrFacts.prefix_append_r _ _ _ P)).
    now rewrite (MoreStrFacts.drop_prefix_append _ _ _ P). }
  induction l as [|c l IH]; cbn [Str.after_first].
  - destruct (String.prefix p "") eqn:P; [|discriminate].
    intros [= <-]. now apply Here.
  - destruct (String.prefix p (String c l)) eqn:P.
    + intros [= <-]. now apply Here.
    + intros A. cbn [append Str.after_first].
      change (String c (l ++ String Str.nl x))
        with (String c l ++ String Str.nl x).
      rewrite (prefix_no_straddle _ _ _ M P). now apply IH.
Qed.

Lemma thought_line_no_action (t : string) :
  Str.contains "Action: " t = false ->
  Str.contains "Action: " ("Thought: " ++ t) = false.
Proof.
  intros C. cbn [append Str.contains].
  destruct t; cbn [Str.contains] in C |- *; exact C.
Qed.

Lemma same_but_thought_action (l1 l2 : string) :
  same_but_thought l1 l2 ->
  Str.after_first "Action: " l1 = Str.after_first "Action: " l2
  /\ (Str.after_first "Action: " l1 = None ->
      Str.contains "Action: " l1 = false
      /\ Str.contains "Action: " l2 = false).
Proof.
  intros [l | t1 t2 C1 C2].
  - split; [reflexivity|]. intros A.
    split; now apply MoreStrFacts.after_first_None_contains.
  - apply thought_line_no_action in C1. apply thought_line_no_action in C2.
    rewrite (MoreStrFacts.contains_false_after_first _ _ C1).
    rewrite (MoreStrFacts.contains_false_after_first _ _ C2).
    now repeat split.
Qed.

(** The action line read is the same in two texts that are line by line
    the same but for the thought. *)
Lemma action_of_lines (ls1 ls2 : list string) :
  Forall2 same_but_thought ls1 ls2 ->
  option_map Str.first_line (Str.after_first "Action: " (Str.join lf ls1))
  = option_map Str.first_line (Str.after_first "Action: " (Str.join lf ls2)).
Proof.
  induction 1 as [|l1 l2 ls1 ls2 R Rs IH]; [reflexivity|].
  destruct (same_but_thought_action _ _ R) as [E N].
  destruct Rs as [|a b ls1 ls2 Ra Rs].
  - cbn [Str.join]. now rewrite E.
  - change (Str.join lf (l1 :: a :: ls1))
      with (l1 ++ String Str.nl (Str.join lf (a :: ls1))).
    change (Str.join lf (l2 :: b :: ls2))
      with (l2 ++ String Str.nl (Str.join lf (b :: ls2))).
    destruct (Str.after_first "Action: " l1) as [r|] eqn:A1.
    + symmetry in E.
      rewrite (after_first_keep "Action: " l1 r _ eq_refl A1).
      rewrite (after_first_keep "Action: " l2 r _ eq_refl E).
      cbn [option_map]. now rewrite !MoreStrFacts.first_line_append_nl.
    + destruct (N eq_refl) as [C1 C2].
      rewrite (after_first_skip_line "Action: " l1 _ eq_refl C1).
      rewrite (after_first_skip_line "Action: " l2 _ eq_refl C2).
      exact IH.
Qed.

Lemma empty_of_lines (x y : string) :
  Forall2 same_but_thought (Str.lines x) (Str.lines y) -> x = "" -> y = "".
Proof.
  intros R ->. cbn [Str.lines] in R.
  rewrite <- (join_lines y). destruct (Str.lines y) as [|l2 ls2].
  - inversion R.
  - inversion R as [|l1 l2' ls1 ls2' Rl Rs]. subst.
    inversion Rs. subst. now inversion Rl.
Qed.

Lemma same_but_thought_sym (l1 l2 : string) :
  same_but_thought l1 l2 -> same_but_thought l2 l1.
Proof. intros [l | t1 t2 C1 C2]; now constructor. Qed.

Lemma Forall2_flip (ls1 ls2 : list string) :
  Forall2 same_but_thought ls1 ls2 -> Forall2 same_but_thought ls2 ls1.
Proof.
  induction 1; constructor; [now apply same_but_thought_sym | assumption].
Qed.

Lemma differ_same_action (r1 r2 : option string) :
  differ_in_thought r1 r2 -> same_action r1 r2.
Proof.
  destruct r1 as [x|], r2 as [y|]; cbn [differ_in_thought].
  2: now intros []. 2: now intros []. 2: intros _; exact I.
  intros R. unfold same_action.
  destruct x as [|c x].
  - now rewrite (empty_of_lines _ _ R eq_refl).
  - destruct y as [|d y].
    + pose proof (empty_of_lines _ _ (Forall2_flip _ _ R) eq_refl) as E.
      discriminate E.
    + cbn [if_truthy]. rewrite !ReFacts.parse_output_scan. cbn [snd].
      unfold scan.
      pose proof (action_of_lines _ _ R) as A. rewrite !join_lines in A.
      destruct (Str.after_first "Action: " (String c x)) as [r1|],
               (Str.after_first "Action: " (String d y)) as [r2|];
        cbn [option_map] in A |- *; try discriminate; [|reflexivity].
      now injection A as ->.
Qed.

(** Two runs that meet the same actions end the same way. *)
Lemma while_same_action (q : string) (fuel : nat) :
  forall (f : frame (list (option string))) (g1 g2 : list (option string)),
    Forall2 same_action g1 g2 ->
    same_run (while fuel q (with_llm f g1)) (while fuel q (with_llm f g2)).
Proof.
  induction fuel as [|fuel IH]; intros f g1 g2 R; [exact I|].
  cbn [while]. cbn [with_llm current_step self set_llm_client max_steps].
  destruct (current_step f <? max_steps (self f))%Z; [|now repeat split].
  rewrite !body_eq.
  change (request q (with_llm f g1)) with (request q f).
  change (request q (with_llm f g2)) with (request q f).
  cbn [with_llm self set_llm_client llm_client].
  destruct R as [|r1 r2 g1 g2 Rr R]; cbn [think scripted].
  - unfold think, scripted. cbn [if_truthy]. now repeat split.
  - unfold think, scripted. unfold same_action in Rr.
    change (answered q (with_llm f (r1 :: g1)) g1) with (answered q f g1).
    change (answered q (with_llm f (r2 :: g2)) g2) with (answered q f g2).
    destruct (if_truthy r1) as [x|], (if_truthy r2) as [y|];
      try contradiction; [|now repeat split].
    rewrite Rr.
    destruct (if_truthy (snd (_parse_output y))) as [action|];
      [|now repeat split].
    change (answered q f g1) with (with_llm (answered q f g1) g1).
    change (answered q f g2) with (with_llm (answered q f g1) g2).
    rewrite !act_with_llm.
    destruct (act action (answered q f g1)) as [f'|f'|v f'|e f'];
      cbn [map_flow]; [now apply IH | now repeat split ..].
Qed.

End ThoughtFacts.

(** C3, as stated, fails: the action is read at the leftmost occurrence of
    its prefix, and that may lie in the text of the thought line.  The two
    responses have the same action line and differ in the thought line
    only; the runs return different answers. *)
Lemma thought_text_can_carry_an_action :
  Str.lines (reply "a" "Finish[1]") = ["Thought: a"; "Action: Finish[1]"]
  /\ Str.lines (reply "Action: Finish[2]" "Finish[1]")
     = ["Thought: Action: Finish[2]"; "Action: Finish[1]"]
  /\ option_map fst (run (agent 5 [Some (reply "a" "Finish[1]")]) "q")
     = Some (Returned (Some "1"))
  /\ option_map fst
       (run (agent 5 [Some (reply "Action: Finish[2]" "Finish[1]")]) "q")
     = Some (Returned (Some "2")).
Proof. repeat split. Qed.

(** C3, amended: the parsed thought plays no part in the control flow.
    For two sequences of canned responses that are the same but for the
    text of their thought lines, wherever in a response those lines
    stand, where no such text contains the prefix of the action, the two
    runs end with the same outcome, the same history, the same step
    counter and the same calls to the generator and the tools. *)
Theorem thoughts_do_not_steer (a : ReActAgent (list (option string)))
    (q : string) (g1 g2 : list (option string)) :
  Forall2 differ_in_thought g1 g2 ->
  same_run (run (set_llm_client a g1) q) (run (set_llm_client a g2) q).
Proof.
  intros D. unfold run.
  apply (ThoughtFacts.while_same_action q _ (enter a) g1 g2).
  induction D as [|r1 r2 g1 g2 Dr D IH]; constructor;
    [now apply ThoughtFacts.differ_same_action | exact IH].
Qed.

Lemma thoughts_do_not_steer_witness :
  same_run
    (run (set_llm_client (agent 5 [])
            [Some ("Let me see." ++ lf ++ "Thought: look it up" ++ lf
                   ++ "Action: Search[x]");
             None;
             Some ("Action: Finish[42]" ++ lf ++ "Thought: done")]) "q")
    (run (set_llm_client (agent 5 [])
            [Some ("Let me see." ++ lf ++ "Thought: search the web" ++ lf
                   ++ "Action: Search[x]");
             None;
             Some ("Action: Finish[42]" ++ lf ++ "Thought: finished")]) "q").
Proof.
  apply (thoughts_do_not_steer (agent 5 []) "q").
  constructor; [|constructor; [exact I|constructor; [|constructor]]].
  - constructor; [apply same_line|].
    constructor; [apply (thought_lines "look it up" "search the web");
                  reflexivity|].
    constructor; [apply same_line | constructor].
  - constructor; [apply same_line|].
    constructor; [apply (thought_lines "done" "finished"); reflexivity|].
    constructor.
Defined.

(** * Further properties of the agent *)


Section MoreBodyFacts.

Context {G : Type} `{LLMClient G}.

Import StrFacts MoreStrFacts.

Lemma if_truthy_inv (o : option string) (s : string) :
  if_truthy o = Some s -> o = Some s /\ s <> "".
Proof.
  destruct o as [[|c x]|]; cbn; try discriminate.
  intros [= <-]. split; [reflexivity | discriminate].
Qed.

Lemma if_truthy_None (o : option string) :
  if_truthy o = None <-> o = None \/ o = Some "".
Proof.
  destruct o as [[|c x]|]; cbn; split; auto; try discriminate.
  intros [E|E]; discriminate E.
Qed.

(** A response whose action is missing or blank has no action to act on. *)
Lemma no_action_iff (r : string) :
  no_action r <-> if_truthy (snd (_parse_output r)) = None.
Proof.
  rewrite ReFacts.parse_output_scan. cbn [snd]. unfold no_action, scan.
  rewrite if_truthy_None. split.
  - intros [C | (pre & rest & L & B)].
    + left. now rewrite (contains_false_after_first _ _ C).
    + right. rewrite (after_first_leftmost _ _ _ _ L). cbn [option_map].
      f_equal. now apply strip_empty_iff.
  - destruct (Str.after_first "Action: " r) as [rest|] eqn:A; cbn [option_map].
    + intros [E|E]; [discriminate|]. injection E as E. right.
      destruct (ScanFacts.after_first_Some _ _ _ A) as [pre L].
      exists pre, rest. split; [exact L|]. now apply strip_empty_iff.
    + intros _. left. now apply after_first_None_contains.
Qed.

(** [act] has no way to the [break]s of the loop. *)
Lemma act_not_break (action : string) (f f' : frame G) :
  act action f <> Break f'.
Proof.
  unfold act. destruct (Str.startswith action "Finish").
  - now destruct (re_match finish_re action).
  - destruct (_parse_action action) as [n i].
    destruct (if_truthy n); [|discriminate].
    destruct (if_truthy i); [|discriminate].
    now destruct (getTool _ _).
Qed.

Lemma act_raise_inv (action : string) (f f' : frame G) (e : exn) :
  act action f = Raise e f' ->
  e = AttributeError /\ f' = f
  /\ Str.startswith action "Finish" = true
  /\ re_match finish_re action = None.
Proof.
  unfold act. destruct (Str.startswith action "Finish").
  - destruct (re_match finish_re action); [discriminate|].
    now intros [= <- <-].
  - destruct (_parse_action action) as [n i].
    destruct (if_truthy n); [|discriminate].
    destruct (if_truthy i); [|discriminate].
    now destruct (getTool _ _).
Qed.

(** The pattern of the final answer matches exactly the final answers. *)
Lemma re_match_finish_cases (action : string) :
  (exists p, re_match finish_re action = Some [p] /\ final_answer action p)
  \/ (re_match finish_re action = None /\ forall p, ~ final_answer action p).
Proof.
  assert (Fwd : forall p, final_answer action p ->
                          re_match finish_re action = Some [p]).
  { intros p (tail & -> & M & T). rewrite BracketFacts.re_match_finish.
    change (chop "Finish[" ("Finish[" ++ p ++ "]" ++ tail))
      with (Some (p ++ String "]" tail)).
    cbv iota beta. now rewrite (BracketFacts.last_bracket_join p tail M T). }
  destruct (re_match finish_re action) as [m|] eqn:R.
  - left. rewrite BracketFacts.re_match_finish in R.
    destruct (chop "Finish[" action) as [r|] eqn:C; [|discriminate].
    destruct (last_bracket r) as [[a t]|] eqn:L; [|discriminate].
    injection R as <-. exists a. split; [reflexivity|].
    destruct (BracketFacts.last_bracket_split _ _ _ L) as (-> & Ma & Mt).
    exists t. apply chop_Some in C. now repeat split.
  - right. split; [reflexivity|]. intros p F.
    specialize (Fwd p F). discriminate.
Qed.

(** Everything a pass through the body adds to the calls and to the
    history. *)
Lemma body_trace (q : string) (f : frame G) :
  let f' := frame_of (body q f) in
  (calls f' = (calls f ++ [LLMCall (request q f)])%list
   /\ (history (self f') = history (self f)
       \/ List.length (history (self f'))
          = List.length (history (self f)) + 2))
  \/ (exists name input,
        calls f'
        = (calls f ++ [LLMCall (request q f); ToolCall name input])%list
        /\ good_call (tool_executor (self f)) (ToolCall name input)
        /\ List.length (history (self f'))
           = List.length (history (self f)) + 2).
Proof.
  rewrite body_eq. destruct (think _ _) as [r g].
  destruct (if_truthy r) as [r'|]; [|left; split; [reflexivity | now left]].
  destruct (if_truthy (snd (_parse_output r'))) as [action|];
    [|left; split; [reflexivity | now left]].
  unfold act. destruct (Str.startswith action "Finish") eqn:Sw.
  - destruct (re_match finish_re action);
      left; (split; [reflexivity | now left]).
  - destruct (_parse_action action) as [n i] eqn:P.
    destruct (if_truthy n) as [n'|] eqn:Tn;
      [|left; split; [reflexivity | now left]].
    destruct (if_truthy i) as [i'|] eqn:Ti;
      [|left; split; [reflexivity | now left]].
    apply if_truthy_inv in Tn as [-> Nn]. apply if_truthy_inv in Ti as [-> Ni].
    cbn [answered self set_llm_client tool_executor].
    destruct (getTool (tool_executor (self f)) n') as [tool|] eqn:T.
    + right. exists n', i'. cbn [frame_of calls self set_history history answered
                                 set_llm_client].
      split; [now rewrite <- app_assoc|]. split; [|now rewrite length_app].
      rewrite ToolFacts.parse_action_eq in P.
      destruct (Str.take_while is_word action) as [|c w] eqn:Tw; [discriminate|].
      destruct (chop "[" (Str.drop_while is_word action)) as [rest|] eqn:C;
        [|discriminate].
      destruct (last_bracket rest) as [[a t]|] eqn:L; [|discriminate].
      injection P as <- <-.
      destruct (BracketFacts.last_bracket_split _ _ _ L) as (_ & Ma & _).
      repeat split; try assumption.
      * rewrite <- Tw. apply forallb_take_while.
      * destruct (Str.startswith (String c w) "Finish") eqn:Sn; [|reflexivity].
        unfold Str.startswith in Sn, Sw.
        rewrite <- (take_drop_while is_word action), Tw in Sw.
        now rewrite (prefix_append_r _ _ _ Sn) in Sw.
      * now exists tool.
    + left. cbn [frame_of calls self set_history history answered
                 set_llm_client].
      split; [reflexivity|]. right. now rewrite length_app.
Qed.

End MoreBodyFacts.

Section MoreLoopFacts.

Context {G : Type} `{LLMClient G}.

(** What every pass keeps, the run keeps. *)
Lemma while_invariant (P : frame G -> Prop) (q : string) :
  (forall f, P f -> P (frame_of (body q f))) ->
  forall fuel f r, P f -> while fuel q f = Some r -> P (snd r).
Proof.
  intros Step. induction fuel as [|fuel IH]; intros f r Pf; cbn [while];
    [discriminate|].
  destruct (current_step f <? max_steps (self f))%Z; [|now intros [= <-]].
  specialize (Step f Pf).
  destruct (body q f) as [f'|f'|v f'|e f']; cbn [frame_of] in Step;
    [now apply IH | now intros [= <-] ..].
Qed.

Lemma tool_calls_app (cs1 cs2 : list call) :
  tool_calls (cs1 ++ cs2) = (tool_calls cs1 ++ tool_calls cs2)%list.
Proof. unfold tool_calls. apply filter_app. Qed.

Lemma body_accounted (te : ToolExecutor) (q : string) (f : frame G) :
  accounted te f -> accounted te (frame_of (body q f)).
Proof.
  intros (Te & Good & Lo & Hi).
  pose proof (body_frame q f) as B. pose proof (body_trace q f) as T.
  cbv zeta in B, T. destruct B as (_ & _ & B3 & _ & B5).
  unfold accounted. rewrite B3, B5.
  destruct T as [[Ec Eh] | (n & i & Ec & Gc & Eh)]; rewrite Ec.
  - split; [exact Te|]. split.
    + apply Forall_app. split; [exact Good|]. constructor; [|constructor].
      cbn. now eexists.
    + rewrite tool_calls_app. cbn [tool_calls filter is_llm_call negb].
      rewrite app_nil_r. destruct Eh as [-> | ->]; lia.
  - split; [exact Te|]. split.
    + apply Forall_app. split; [exact Good|].
      constructor; [cbn; now eexists|]. constructor; [|constructor].
      now rewrite <- Te.
    + rewrite tool_calls_app. cbn [tool_calls filter is_llm_call negb].
      rewrite length_app. cbn [List.length]. lia.
Qed.

End MoreLoopFacts.

(** X1: with [max_steps] zero or negative the loop is not entered: [run]
    returns no answer, asks nothing of the generator and leaves the
    client as it was. *)
Theorem run_without_steps {G : Type} `{LLMClient G}
    (a : ReActAgent G) (q : string) :
  (max_steps a <= 0)%Z ->
  exists f,
    run a q = Some (Returned None, f)
    /\ calls f = []
    /\ history (self f) = []
    /\ llm_client (self f) = llm_client a
    /\ current_step f = 0%Z.
Proof.
  intros Le. exists (enter a). split; [|now repeat split].
  unfold run. replace (Z.to_nat (max_steps a)) with 0 by lia.
  cbn [while enter current_step self set_history max_steps].
  now replace (0 <? max_steps a)%Z with false by (symmetry; apply Z.ltb_ge; lia).
Qed.

Lemma run_without_steps_witness :
  exists f,
    run (agent 0 [Some (reply "t" "Finish[42]")]) "q" = Some (Returned None, f)
    /\ calls f = []
    /\ history (self f) = []
    /\ llm_client (self f) = [Some (reply "t" "Finish[42]")]
    /\ current_step f = 0%Z.
Proof.
  apply (run_without_steps (agent 0 [Some (reply "t" "Finish[42]")]) "q").
  cbn. lia.
Defined.

(** X2: a pass breaks out of the loop exactly when the generator gave no
    text, the empty text, or a text whose action is missing or blank; the
    frame is then the one right after the call, with the history as it
    was. *)
Theorem step_breaks_iff {G : Type} `{LLMClient G}
    (q : string) (f : frame G) (r : option string) (g : G) :
  think (llm_client (self f)) (request q f) = (r, g) ->
  ((exists f', body q f = Break f') <->
   r = None \/ r = Some "" \/ exists text, r = Some text /\ no_action text)
  /\ (forall f', body q f = Break f' ->
        f' = answered q f g /\ history (self f') = history (self f)).
Proof.
  intros T. rewrite body_eq, T. split; [split|].
  - intros [f' B]. destruct r as [[|c text]|]; auto.
    right. right. exists (String c text). split; [reflexivity|].
    apply no_action_iff. cbn [if_truthy] in B.
    destruct (if_truthy (snd (_parse_output (String c text)))) as [action|];
      [|reflexivity].
    now apply act_not_break in B.
  - intros [-> | [-> | (text & -> & N)]]; try (now eexists).
    apply no_action_iff in N.
    destruct text as [|c text]; [now eexists|]. cbn [if_truthy].
    rewrite N. now eexists.
  - intros f' B.
    destruct (if_truthy r) as [text|]; [|now injection B as <-].
    destruct (if_truthy (snd (_parse_output text))) as [action|];
      [|now injection B as <-].
    now apply act_not_break in B.
Qed.

Lemma step_breaks_iff_witness :
  let f := enter (agent 5 [Some "Thought: nothing to do"]) in
  ((exists f', body "q" f = Break f') <->
   Some "Thought: nothing to do" = None
   \/ Some "Thought: nothing to do" = Some ""
   \/ exists text, Some "Thought: nothing to do" = Some text /\ no_action text)
  /\ (forall f', body "q" f = Break f' ->
        f' = answered "q" f [] /\ history (self f') = history (self f)).
Proof.
  apply (step_breaks_iff "q" (enter (agent 5 [Some "Thought: nothing to do"]))
           (Some "Thought: nothing to do") []).
  reflexivity.
Defined.

(** X3: a step whose action does not start with [Finish] and names a
    registered tool with a non-empty input calls that tool once, on the
    parsed input, after the call to the generator, and appends to the
    history the text [Action: ] followed by the action and the text
    [Observation: ] followed by the result of the tool. *)
Theorem registered_tool_is_called {G : Type} `{LLMClient G}
    (q : string) (f : frame G) (r : string) (g : G)
    (action name input : string) (tool : string -> string) :
  think (llm_client (self f)) (request q f) = (Some r, g) ->
  snd (_parse_output r) = Some action ->
  Str.startswith action "Finish" = false ->
  _parse_action action = (Some name, Some input) ->
  input <> "" ->
  getTool (tool_executor (self f)) name = Some tool ->
  exists f',
    body q f = Continue f'
    /\ calls f'
       = (calls f
          ++ [LLMCall [{| role := "user"; content := render (self f) q |}];
              ToolCall name input])%list
    /\ history (self f')
       = (history (self f)
          ++ [("Action: " ++ action)%string;
              ("Observation: " ++ tool input)%string])%list
    /\ current_step f' = (current_step f + 1)%Z
    /\ llm_client (self f') = g.
Proof.
  intros T P Sw A Ni Tl.
  destruct (ToolFacts.parse_action_Some _ _ _ A) as [_ Na].
  rewrite (body_act q f r g action T P Na).
  rewrite (act_lookup action name input _ Sw A Ni).
  cbn [answered self set_llm_client tool_executor history calls]. rewrite Tl.
  eexists. split; [reflexivity|].
  cbn [self set_history history calls current_step llm_client].
  repeat split. now rewrite <- app_assoc.
Qed.

Lemma registered_tool_is_called_witness :
  let f := enter (agent 5 [Some (reply "t" "Search[rocq]")]) in
  exists f',
    body "q" f = Continue f'
    /\ calls f'
       = (calls f
          ++ [LLMCall [{| role := "user"; content := render (self f) "q" |}];
              ToolCall "Search" "rocq"])%list
    /\ history (self f')
       = (history (self f)
          ++ [("Action: " ++ "Search[rocq]")%string;
              ("Observation: " ++ search "rocq")%string])%list
    /\ current_step f' = (current_step f + 1)%Z
    /\ llm_client (self f') = [].
Proof.
  apply (registered_tool_is_called "q"
           (enter (agent 5 [Some (reply "t" "Search[rocq]")]))
           (reply "t" "Search[rocq]") [] "Search[rocq]" "Search" "rocq" search).
  - reflexivity.
  - reflexivity.
  - reflexivity.
  - reflexivity.
  - discriminate.
  - reflexivity.
Defined.

(** X4: for an action that starts with [Finish], the step returns [p]
    exactly when the action is a final answer with payload [p]: what lies
    between the bracket after [Finish] and the last closing bracket of
    that line, text after it being ignored; the payload is unique; and the
    step raises exactly when the action is no final answer at all. *)
Theorem finish_grammar {G : Type} `{LLMClient G}
    (action : string) (f : frame G) :
  Str.startswith action "Finish" = true ->
  (forall p, act action f = Return p f <-> final_answer action p)
  /\ (act action f = Raise AttributeError f <-> forall p, ~ final_answer action p)
  /\ (forall p p', final_answer action p -> final_answer action p' -> p = p').
Proof.
  intros Sw. unfold act. rewrite Sw.
  destruct (re_match_finish_cases action) as [(p0 & R & F) | (R & N)];
    rewrite R.
  - assert (U : forall p, final_answer action p -> p = p0).
    { intros p Fp.
      destruct (re_match_finish_cases action) as [(p1 & R1 & _) | (_ & N1)];
        [|now elim (N1 p)].
      clear R1. revert Fp. intros (tail & E & M & T).
      rewrite BracketFacts.re_match_finish in R. subst action.
      change (chop "Finish[" ("Finish[" ++ p ++ "]" ++ tail))
        with (Some (p ++ String "]" tail)) in R.
      cbv iota beta in R.
      rewrite (BracketFacts.last_bracket_join p tail M T) in R.
      now injection R. }
    split; [|split].
    + intros p. split; [intros [= <-]; exact F|].
      intros Fp. now rewrite (U p Fp).
    + split; [discriminate | intros Nn; now elim (Nn p0)].
    + intros p p' Fp Fp'. now rewrite (U p Fp), (U p' Fp').
  - split; [|split].
    + intros p. split; [discriminate | intros Fp; now elim (N p)].
    + split; [intros _; exact N | reflexivity].
    + intros p p' Fp. now elim (N p).
Qed.

Lemma finish_grammar_witness :
  let f := enter (agent 5 []) in
  (forall p, act "Finish[see [1]] ok" f = Return p f
             <-> final_answer "Finish[see [1]] ok" p)
  /\ (act "Finish[see [1]] ok" f = Raise AttributeError f
      <-> forall p, ~ final_answer "Finish[see [1]] ok" p)
  /\ (forall p p', final_answer "Finish[see [1]] ok" p ->
                   final_answer "Finish[see [1]] ok" p' -> p = p').
Proof.
  apply (finish_grammar "Finish[see [1]] ok" (enter (agent 5 []))).
  reflexivity.
Defined.

Section RaiseFacts.

Context {G : Type} `{LLMClient G}.

(** A pass that stops, after passes that went on, ends the run. *)
Lemma while_after_passes (q : string) (m : nat) :
  forall (f fm : frame G) (r : outcome * frame G) (fuel : nat),
    passes m q f = Some fm ->
    (current_step fm <? max_steps (self fm))%Z = true ->
    stops (body q fm) r ->
    m < fuel ->
    while fuel q f = Some r.
Proof.
  induction m as [|m IH]; intros f fm r fuel P Guard St Lt;
    (destruct fuel as [|fuel]; [lia|]); cbn [passes] in P; cbn [while].
  - injection P as <-. rewrite Guard.
    destruct (body q f); cbn in St; [contradiction | now subst ..].
  - destruct (current_step f <? max_steps (self f))%Z; [|discriminate].
    destruct (body q f) as [f'|f'|v f'|e f']; try discriminate.
    apply (IH f' fm r fuel P Guard St). lia.
Qed.

End RaiseFacts.

(** X5: the [AttributeError] of the extraction of the final answer ends a
    run exactly when, after some number of passes that all went on and
    with steps left, a pass gets a response whose action starts with
    [Finish] and is no final answer; the run then ends in the frame right
    after that call of the generator, with the history the earlier passes
    left. *)
Theorem run_raises_iff_bad_finish {G : Type} `{LLMClient G}
    (a : ReActAgent G) (q : string) (f : frame G) :
  run a q = Some (Raised AttributeError, f)
  <->
  exists m fm r g action,
    passes m q (enter a) = Some fm
    /\ (current_step fm < max_steps a)%Z
    /\ think (llm_client (self fm)) (request q fm) = (Some r, g)
    /\ snd (_parse_output r) = Some action
    /\ Str.startswith action "Finish" = true
    /\ (forall p, ~ final_answer action p)
    /\ f = {| self := set_llm_client (self fm) g;
              current_step := (current_step fm + 1)%Z;
              calls :=
                (calls fm
                 ++ [LLMCall [{| role := "user";
                                 content := render (self fm) q |}]])%list |}.
Proof.
  split.
  - unfold run. intros W.
    destruct (while_passes _ _ _ _ W) as (m & fm & P & D).
    destruct D as [[_ D] | [Guard St]]; [discriminate|].
    destruct (passes_inv _ _ _ _ P) as (_ & I2 & _).
    cbn [enter self set_history max_steps] in I2.
    destruct (body q fm) as [f'|f'|v f'|e' f'] eqn:Bd; cbn in St;
      try contradiction; try discriminate.
    injection St as <- <-.
    rewrite body_eq in Bd.
    destruct (think (llm_client (self fm)) (request q fm)) as [r g] eqn:T.
    destruct (if_truthy r) as [text|] eqn:Tr; [|discriminate].
    destruct (if_truthy (snd (_parse_output text))) as [action|] eqn:Ta;
      [|discriminate].
    apply if_truthy_inv in Tr as [-> _]. apply if_truthy_inv in Ta as [Ta _].
    apply act_raise_inv in Bd as (_ & -> & Sw & R).
    exists m, fm, text, g, action.
    apply Z.ltb_lt in Guard. rewrite I2 in Guard.
    repeat split; try assumption.
    destruct (re_match_finish_cases action) as [(p & R' & _) | (_ & N)];
      [congruence | exact N].
  - intros (m & fm & r & g & action & P & Guard & T & Pa & Sw & N & ->).
    destruct (passes_inv _ _ _ _ P) as (I1 & I2 & _).
    cbn [enter self set_history max_steps current_step] in I1, I2.
    unfold run.
    apply (while_after_passes q m (enter a) fm).
    + exact P.
    + apply Z.ltb_lt. now rewrite I2.
    + assert (Na : action <> "") by (intros ->; discriminate Sw).
      rewrite (body_act q fm r g action T Pa Na). unfold act. rewrite Sw.
      destruct (re_match_finish_cases action) as [(p & _ & F) | (R & _)];
        [now elim (N p)|].
      rewrite R. reflexivity.
    + lia.
Qed.

Section RunAccounts.

Context {G : Type} `{LLMClient G}.

Lemma run_accounted (a : ReActAgent G) (q : string) :
  exists o f, run a q = Some (o, f) /\ accounted (tool_executor a) f.
Proof.
  destruct (run_end a q) as (o & f & R & _). exists o, f. split; [exact R|].
  assert (A0 : accounted (tool_executor a) (enter a)).
  { repeat split; [constructor | cbn; lia | cbn; lia]. }
  exact (while_invariant (accounted (tool_executor a)) q
           (body_accounted (tool_executor a) q) _ _ _ A0 R).
Qed.

End RunAccounts.

(** X6: whatever the generator answers, every call [run] makes is well
    formed: each request to the generator is a single message of the
    user; each call of a tool goes to a registered tool, under a name made
    of word characters that does not start with [Finish], on an input
    that is not empty and has no line feed. *)
Theorem run_calls_well_formed {G : Type} `{LLMClient G}
    (a : ReActAgent G) (q : string) :
  exists o f,
    run a q = Some (o, f)
    /\ Forall (good_call (tool_executor a)) (calls f).
Proof.
  destruct (run_accounted a q) as (o & f & R & _ & Good & _).
  now exists o, f.
Qed.

(** X7: at the end of a run the history has two lines for each call of a
    tool at least, and two lines for each call of the generator at most;
    so there are no more calls of tools than calls of the generator. *)
Theorem run_history_accounting {G : Type} `{LLMClient G}
    (a : ReActAgent G) (q : string) :
  exists o f,
    run a q = Some (o, f)
    /\ 2 * List.length (tool_calls (calls f)) <= List.length (history (self f))
    /\ List.length (history (self f)) <= 2 * llm_calls (calls f)
    /\ List.length (tool_calls (calls f)) <= llm_calls (calls f).
Proof.
  destruct (run_accounted a q) as (o & f & R & _ & _ & Lo & Hi).
  exists o, f. repeat split; try assumption. lia.
Qed.

Module ExhaustFacts.

Lemma dispatch_calls (q : string) (f : frame (list (option string)))
    (r : string) (rest : list (option string)) :
  llm_client (self f) = Some r :: rest ->
  dispatches (tool_executor (self f)) r ->
  exists name input,
    calls (frame_of (body q f))
    = (calls f ++ [LLMCall (request q f); ToolCall name input])%list.
Proof.
  intros L (action & name & input & tool & P & Sw & A & Ni & T).
  destruct (ToolFacts.parse_action_Some _ _ _ A) as [_ Na].
  assert (Th : think (llm_client (self f)) (request q f) = (Some r, rest))
    by now rewrite L.
  rewrite (body_act q f r rest action Th P Na).
  rewrite (act_lookup action name input _ Sw A Ni).
  cbn [answered self set_llm_client tool_executor history calls]. rewrite T.
  exists name, input. cbn [frame_of calls]. now rewrite <- app_assoc.
Qed.

Lemma while_exhaust (q : string) (rest : list (option string))
    (te : ToolExecutor) (pre : list string) :
  Forall (dispatches te) pre ->
  forall (fuel : nat) (f : frame (list (option string))),
    llm_client (self f) = (map Some pre ++ rest)%list ->
    tool_executor (self f) = te ->
    List.length pre < fuel ->
    max_steps (self f) = (current_step f + Z.of_nat (List.length pre))%Z ->
    exists f',
      while fuel q f = Some (Returned None, f')
      /\ llm_calls (calls f') = llm_calls (calls f) + List.length pre
      /\ List.length (tool_calls (calls f'))
         = List.length (tool_calls (calls f)) + List.length pre
      /\ List.length (history (self f'))
         = List.length (history (self f)) + 2 * List.length pre
      /\ llm_client (self f') = rest.
Proof.
  intros D. induction D as [|r pre Dr D IH]; intros fuel f L Te Hf Hs;
    (destruct fuel as [|fuel]; [cbn in Hf; lia|]); cbn [while].
  - cbn [List.length] in Hs.
    replace (current_step f <? max_steps (self f))%Z with false
      by (symmetry; apply Z.ltb_ge; lia).
    exists f. cbn [List.length]. repeat split; try lia. exact L.
  - cbn [List.length] in Hs, Hf.
    replace (current_step f <? max_steps (self f))%Z with true
      by (symmetry; apply Z.ltb_lt; lia).
    rewrite <- Te in Dr.
    destruct (dispatch_calls q f r _ L Dr) as (name & input & Ec).
    destruct (ScriptFacts.dispatch_pass q f r _ L Dr)
      as (f1 & B & L1 & S1 & M1 & T1 & H1 & C1).
    rewrite B in Ec |- *. cbn [frame_of] in Ec.
    destruct (IH fuel f1 L1) as (f' & W & C' & Tc & H' & L');
      [congruence | lia | rewrite S1, M1; lia |].
    exists f'. split; [exact W|].
    rewrite Ec, tool_calls_app in Tc.
    cbn [tool_calls filter is_llm_call negb List.length] in Tc.
    rewrite length_app in Tc. cbn [List.length] in Tc |- *.
    repeat split; try lia. exact L'.
Qed.

End ExhaustFacts.

(** X8: when [max_steps = n] and the first [n] canned responses each
    dispatch a registered tool, [run] returns no answer after exactly [n]
    calls of the generator and [n] calls of tools, with [2 * n] lines in
    the history; the responses after the first [n] are not asked for. *)
Theorem exhausted_after_dispatches (a : ReActAgent (list (option string)))
    (q : string) (pre : list string) (rest : list (option string)) :
  llm_client a = (map Some pre ++ rest)%list ->
  Forall (dispatches (tool_executor a)) pre ->
  max_steps a = Z.of_nat (List.length pre) ->
  exists f,
    run a q = Some (Returned None, f)
    /\ llm_calls (calls f) = List.length pre
    /\ List.length (tool_calls (calls f)) = List.length pre
    /\ List.length (history (self f)) = 2 * List.length pre
    /\ llm_client (self f) = rest.
Proof.
  intros L D M. unfold run.
  destruct (ExhaustFacts.while_exhaust q rest (tool_executor a) pre D
              (S (Z.to_nat (max_steps a))) (enter a))
    as (f & W & C & Tc & Hh & Lr).
  - exact L.
  - reflexivity.
  - lia.
  - cbn [enter current_step self set_history max_steps]. lia.
  - exists f. split; [exact W|].
    cbn [enter calls self set_history history List.length] in C, Tc, Hh.
    change (llm_calls []) with 0 in C.
    change (tool_calls []) with (@nil call) in Tc. cbn [List.length] in Tc.
    repeat split; try lia. exact Lr.
Qed.

Lemma exhausted_after_dispatches_witness :
  exists f,
    run (agent 2 [Some (reply "a" "Search[x]"); Some (reply "b" "Search[y]");
                  Some (reply "t" "Finish[42]")]) "q"
    = Some (Returned None, f)
    /\ llm_calls (calls f) = 2
    /\ List.length (tool_calls (calls f)) = 2
    /\ List.length (history (self f)) = 2 * 2
    /\ llm_client (self f) = [Some (reply "t" "Finish[42]")].
Proof.
  apply (exhausted_after_dispatches
           (agent 2 [Some (reply "a" "Search[x]"); Some (reply "b" "Search[y]");
                     Some (reply "t" "Finish[42]")])
           "q" [reply "a" "Search[x]"; reply "b" "Search[y]"]
           [Some (reply "t" "Finish[42]")]).
  - reflexivity.
  - repeat constructor.
    + exists "Search[x]", "Search", "x", search.
      repeat split; discriminate.
    + exists "Search[y]", "Search", "y", search.
      repeat split; discriminate.
  - reflexivity.
Defined.

(** X9: a response made of a thought line and an action line parses back
    into its two parts: when the thought has no [Action: ] in it, the
    thought read is the first line of the thought, stripped, and the
    action read is the first line of the action, stripped. *)
Theorem parse_output_reply (thought action : string) :
  Str.contains "Action: " thought = false ->
  _parse_output (reply thought action)
  = (Some (Str.strip (Str.first_line thought)),
     Some (Str.strip (Str.first_line action))).
Proof.
  intros C. rewrite ReFacts.parse_output_scan. unfold scan, reply. f_equal.
  - rewrite MoreStrFacts.after_first_here. cbn [option_map].
    change (thought ++ lf ++ "Action: " ++ action)
      with (thought ++ String Str.nl ("Action: " ++ action)).
    now rewrite MoreStrFacts.first_line_append_nl.
  - change (Str.after_first "Action: "
              ("Thought: " ++ thought ++ lf ++ "Action: " ++ action))
      with (Str.after_first "Action: "
              (thought ++ String Str.nl ("Action: " ++ action))).
    rewrite (StrFacts.after_first_skip_line "Action: " thought _ eq_refl C).
    now rewrite MoreStrFacts.after_first_here.
Qed.

Lemma parse_output_reply_witness :
  _parse_output (reply "  I should search " " Search[rocq]  ")
  = (Some (Str.strip (Str.first_line "  I should search ")),
     Some (Str.strip (Str.first_line " Search[rocq]  "))).
Proof.
  apply (parse_output_reply "  I should search " " Search[rocq]  ").
  reflexivity.
Defined.

(** * Properties of the client *)

Module ClientFacts.

Import Client.

Lemma given_truthy (o : option string) :
  given o <-> exists x, if_truthy o = Some x.
Proof.
  unfold given. destruct o as [[|c s]|]; cbn; split;
    try (intros (c' & s' & E); discriminate E);
    try (intros (x & E); discriminate E).
  - intros _. now eexists.
  - intros _. now exists c, s.
Qed.

Lemma or_else_truthy (a b : option string) :
  (exists x, if_truthy (or_else a b) = Some x) <-> given a \/ given b.
Proof.
  rewrite !given_truthy. unfold or_else.
  destruct (if_truthy a) as [x|] eqn:Ta.
  - split; [intros _; left; now exists x|]. intros _. exists x.
    destruct a as [[|c s]|]; cbn in Ta |- *; try discriminate.
    now injection Ta as <-.
  - split; [intros E; now right|].
    intros [(x & E) | E]; [discriminate | exact E].
Qed.

Lemma or_else_left (a b : option string) (x : string) :
  a = Some x -> x <> "" -> or_else a b = Some x.
Proof. intros -> N. unfold or_else. now destruct x. Qed.

Lemma or_else_right (a b : option string) :
  a = None \/ a = Some "" -> or_else a b = b.
Proof. now intros [-> | ->]. Qed.

Lemma if_truthy_Some_eq (o : option string) (x : string) :
  if_truthy o = Some x -> o = Some x /\ x <> "".
Proof.
  destruct o as [[|c s]|]; cbn; try discriminate.
  intros [= <-]. split; [reflexivity | discriminate].
Qed.

Lemma concat_app (l1 l2 : list string) :
  String.concat "" (l1 ++ l2) = String.concat "" l1 ++ String.concat "" l2.
Proof.
  induction l1 as [|x l1 IH]; [reflexivity|].
  cbn [app]. destruct l1 as [|y l1].
  - cbn [app String.concat]. destruct l2 as [|z l2].
    + cbn. now rewrite StrFacts.append_nil_r.
    + reflexivity.
  - change (String.concat "" (x :: (y :: l1) ++ l2))
      with (x ++ "" ++ String.concat "" ((y :: l1) ++ l2)).
    change (String.concat "" (x :: y :: l1))
      with (x ++ "" ++ String.concat "" (y :: l1)).
    rewrite IH. cbn [append]. now rewrite StrFacts.append_assoc.
Qed.

Lemma contents_cons (c : chunk) (cs : list chunk) (text : string) :
  content_of c = Some text -> contents (c :: cs) = text :: contents cs.
Proof. intros E. unfold contents. cbn [flat_map]. now rewrite E. Qed.

Lemma has_choice_content (c : chunk) :
  has_choice c <-> exists text, content_of c = Some text.
Proof.
  unfold has_choice, content_of. destruct (choices c) as [|ch chs].
  - split; [now intros N | intros [text E]; discriminate].
  - split; [|discriminate]. intros _.
    destruct (if_truthy (delta_content ch)); now eexists.
Qed.

Lemma writes_app {O : Type} `{Console O} (a b : list string) (out : O) :
  writes out (a ++ b)
  = let (out', ok) := writes out a in
    if ok then writes out' b else (out', false).
Proof.
  revert out. induction a as [|x a IH]; intros out; [reflexivity|].
  cbn [app writes]. destruct (write out x) as [out' [|]]; [apply IH|reflexivity].
Qed.

Lemma writes_terminal (texts : list string) (out : string) :
  writes out texts = (out ++ String.concat "" texts, true).
Proof.
  revert out. induction texts as [|x texts IH]; intros out.
  - cbn. now rewrite StrFacts.append_nil_r.
  - cbn [writes]. unfold write at 1, terminal at 1. rewrite IH.
    change (x :: texts) with ([x] ++ texts)%list. rewrite concat_app.
    cbn [String.concat]. now rewrite StrFacts.append_assoc.
Qed.

(** The loop over chunks that all have a choice. *)
Lemma collect_yields {O : Type} `{Console O} (cs : list chunk) (tail : stream) :
  Forall has_choice cs ->
  forall acc (out : O),
    collect (yields cs tail) acc out
    = let (out', ok) := writes out (contents cs) in
      if ok then collect tail (acc ++ contents cs)%list out'
      else (None, out').
Proof.
  induction 1 as [|c cs Hc Hcs IH]; intros acc out.
  - cbn. now rewrite app_nil_r.
  - apply has_choice_content in Hc as [text E].
    cbn [yields collect]. rewrite E, (contents_cons _ _ _ E).
    cbn [writes]. destruct (write out text) as [out' [|]]; [|reflexivity].
    rewrite IH, <- app_assoc. reflexivity.
Qed.

(** Every stream is a run of chunks with a choice, followed by its end or
    by what breaks it. *)
Lemma stream_split (s : stream) :
  exists cs tail,
    s = yields cs tail /\ Forall has_choice cs
    /\ (tail = StopIteration \/ breaks_now tail).
Proof.
  induction s as [|c s (cs & tail & -> & F & E)|].
  - exists [], StopIteration.
    split; [reflexivity|]. split; [constructor|]. now left.
  - destruct (choices c) as [|ch chs] eqn:Ec.
    + exists [], (Yield c (yields cs tail)).
      split; [reflexivity|]. split; [constructor|]. right. exact Ec.
    + exists (c :: cs), tail.
      split; [reflexivity|]. split; [|exact E].
      constructor; [|exact F]. unfold has_choice. now rewrite Ec.
  - exists [], StreamError.
    split; [reflexivity|]. split; [constructor|]. now right.
Qed.

Lemma collect_breaks {O : Type} `{Console O} (tail : stream)
    (acc : list string) (out : O) :
  breaks_now tail -> collect tail acc out = (None, out).
Proof.
  destruct tail as [|c rest|]; cbn; [contradiction | | reflexivity].
  intros E. unfold content_of. now rewrite E.
Qed.

Section ThinkFacts.

Context {S O : Type} `{ChatService S} `{Console O}.

Lemma think_eq (self : t) (messages : list message) (temperature : decimal)
    (w : world S O) :
  think self messages temperature w
  = let (response, svc) :=
      create (service w) (request_of self messages temperature) in
    match response with
    | APIError => (None, {| service := svc; stdout := stdout w |})
    | Opened s =>
        match collect s [] (stdout w) with
        | (Some collected_content, out) =>
            let (out', ok) := write out lf in
            if ok
            then (Some (String.concat "" collected_content),
                  {| service := svc; stdout := out' |})
            else (None, {| service := svc; stdout := out' |})
        | (None, out) => (None, {| service := svc; stdout := out |})
        end
    end.
Proof. reflexivity. Qed.

(** A stream that ends: the text is returned when every call of [print]
    returns. *)
Lemma think_stop (self : t) (messages : list message) (temperature : decimal)
    (w : world S O) (cs : list chunk) (svc : S) :
  create (service w) (request_of self messages temperature)
  = (Opened (yields cs StopIteration), svc) ->
  Forall has_choice cs ->
  think self messages temperature w
  = let (out, ok) := writes (stdout w) (contents cs ++ [lf]) in
    (if ok then Some (String.concat "" (contents cs)) else None,
     {| service := svc; stdout := out |}).
Proof.
  intros C F. rewrite think_eq, C, (collect_yields cs _ F), writes_app.
  destruct (writes (stdout w) (contents cs)) as [out [|]]; [|reflexivity].
  cbn [collect app writes].
  now destruct (write out lf) as [out' [|]].
Qed.

Lemma think_break (self : t) (messages : list message) (temperature : decimal)
    (w : world S O) (cs : list chunk) (tail : stream) (svc : S) :
  create (service w) (request_of self messages temperature)
  = (Opened (yields cs tail), svc) ->
  Forall has_choice cs ->
  breaks_now tail ->
  think self messages temperature w
  = (None,
     {| service := svc;
        stdout := fst (writes (stdout w) (contents cs)) |}).
Proof.
  intros C F B. rewrite think_eq, C, (collect_yields cs tail F).
  destruct (writes (stdout w) (contents cs)) as [out [|]]; [|reflexivity].
  now rewrite (collect_breaks tail _ _ B).
Qed.

Lemma think_api_error (self : t) (messages : list message)
    (temperature : decimal) (w : world S O) (svc : S) :
  create (service w) (request_of self messages temperature)
  = (APIError, svc) ->
  think self messages temperature w
  = (None, {| service := svc; stdout := stdout w |}).
Proof. intros C. now rewrite think_eq, C. Qed.

End ThinkFacts.

End ClientFacts.

Module InitFacts.

Import Client.

Section WithInt.

Variable int : string -> option Z.

(** The timeout is settled without a [ValueError]. *)
Lemma resolve_timeout_inr (env : environ) (timeout : option Z) :
  (exists n, resolve_timeout int env timeout = inr n)
  <-> ((exists n, timeout = Some n /\ n <> 0%Z)
       \/ env "TIMEOUT" = None
       \/ exists text n, env "TIMEOUT" = Some text /\ int text = Some n).
Proof.
  unfold resolve_timeout. split.
  - intros [n E]. destruct timeout as [[|p|p]|];
      try (left; eexists; split; [reflexivity | discriminate]);
      (destruct (env "TIMEOUT") as [text|]; [|now right; left];
       destruct (int text) as [n'|] eqn:Ei; [|discriminate];
       right; right; now exists text, n').
  - intros [(n & -> & N) | [E | (text & n & E & Ei)]].
    + destruct n; [contradiction | now eexists ..].
    + rewrite E. destruct timeout as [[|p|p]|]; now eexists.
    + rewrite E, Ei. destruct timeout as [[|p|p]|]; now eexists.
Qed.

(** The timeout is where [int] raises. *)
Lemma resolve_timeout_inl (env : environ) (timeout : option Z)
    (e : value_error) :
  resolve_timeout int env timeout = inl e
  <-> exists text,
        e = InvalidLiteral text
        /\ (timeout = None \/ timeout = Some 0%Z)
        /\ env "TIMEOUT" = Some text /\ int text = None.
Proof.
  unfold resolve_timeout. split.
  - destruct timeout as [[|p|p]|]; try discriminate;
      (destruct (env "TIMEOUT") as [text|]; [|discriminate];
       destruct (int text) eqn:Ei; [discriminate|];
       intros [= <-]; exists text; repeat split; auto).
  - intros (text & -> & [-> | ->] & E & Ei); now rewrite E, Ei.
Qed.

(** The settings are checked once the timeout is settled. *)
Lemma init_after_timeout (env : environ) (model apiKey baseUrl : option string)
    (timeout : option Z) (n : Z) :
  resolve_timeout int env timeout = inr n ->
  (settings_given env model apiKey baseUrl ->
   exists c, __init__ int env model apiKey baseUrl timeout = inr c)
  /\ (~ settings_given env model apiKey baseUrl ->
      __init__ int env model apiKey baseUrl timeout = inl MissingSettings)
  /\ (forall c, __init__ int env model apiKey baseUrl timeout = inr c ->
                settings_given env model apiKey baseUrl).
Proof.
  intros R.
  assert (Sg : settings_given env model apiKey baseUrl
               <-> (exists x, if_truthy (or_else model (env "MODEL_ID")) = Some x)
                   /\ (exists x, if_truthy (or_else apiKey (env "API_KEY"))
                                 = Some x)
                   /\ (exists x, if_truthy (or_else baseUrl (env "BASE_URL"))
                                 = Some x)).
  { unfold settings_given. now rewrite <- !ClientFacts.or_else_truthy. }
  unfold __init__. rewrite R.
  destruct (if_truthy (or_else model (env "MODEL_ID"))) as [m|].
  - destruct (if_truthy (or_else apiKey (env "API_KEY"))) as [k|].
    + destruct (if_truthy (or_else baseUrl (env "BASE_URL"))) as [u|].
      * assert (Y : settings_given env model apiKey baseUrl)
          by (apply Sg; split; [|split]; now eexists).
        split; [intros _; now eexists|].
        split; [intros N; now elim N | intros c _; exact Y].
      * assert (N : ~ settings_given env model apiKey baseUrl)
          by (intros Y; apply Sg in Y as (_ & _ & [x E]); discriminate).
        split; [intros Y; now elim N|].
        split; [reflexivity | discriminate].
    + assert (N : ~ settings_given env model apiKey baseUrl)
        by (intros Y; apply Sg in Y as (_ & [x E] & _); discriminate).
      split; [intros Y; now elim N|].
      split; [reflexivity | discriminate].
  - assert (N : ~ settings_given env model apiKey baseUrl)
      by (intros Y; apply Sg in Y as ([x E] & _); discriminate).
    split; [intros Y; now elim N|].
    split; [reflexivity | discriminate].
Qed.

End WithInt.

End InitFacts.

(** X10: the two [ValueError]s of the constructor.  The one of [int] is
    raised exactly when the timeout is absent or zero and [TIMEOUT] holds
    a text that is no integer.  The one for missing settings is raised
    exactly when the timeout is settled (a non-zero argument, or
    [TIMEOUT] unset, or [TIMEOUT] holding an integer) and one of the
    model, the key and the address is given neither as an argument nor in
    the environment, an empty string counting as not given.  In all other
    cases, and only then, the constructor reaches the call of [OpenAI]. *)
Theorem init_value_errors (int : string -> option Z) (env : Client.environ)
    (model apiKey baseUrl : option string) (timeout : option Z) :
  (forall text,
     Client.__init__ int env model apiKey baseUrl timeout
     = inl (Client.InvalidLiteral text)
     <-> (timeout = None \/ timeout = Some 0%Z)
         /\ env "TIMEOUT" = Some text /\ int text = None)
  /\ (Client.__init__ int env model apiKey baseUrl timeout
      = inl Client.MissingSettings
      <-> ((exists n, timeout = Some n /\ n <> 0%Z)
           \/ env "TIMEOUT" = None
           \/ exists text n, env "TIMEOUT" = Some text /\ int text = Some n)
          /\ ~ Client.settings_given env model apiKey baseUrl)
  /\ ((forall e, Client.__init__ int env model apiKey baseUrl timeout <> inl e)
      <-> ((exists n, timeout = Some n /\ n <> 0%Z)
           \/ env "TIMEOUT" = None
           \/ exists text n, env "TIMEOUT" = Some text /\ int text = Some n)
          /\ Client.settings_given env model apiKey baseUrl).
Proof.
  rewrite <- (InitFacts.resolve_timeout_inr int env timeout).
  destruct (Client.resolve_timeout int env timeout) as [e|n] eqn:R.
  - assert (E : Client.__init__ int env model apiKey baseUrl timeout = inl e)
      by (unfold Client.__init__; now rewrite R).
    apply InitFacts.resolve_timeout_inl in R as (text0 & -> & D & Et & Ei).
    rewrite E. split; [|split].
    + intros text. split.
      * intros [= <-]. now repeat split.
      * intros (_ & Et' & _). congruence.
    + split; [discriminate|]. intros ([n Hn] & _). discriminate.
    + split; [intros N; now elim (N (Client.InvalidLiteral text0))|].
      intros ([n Hn] & _). discriminate.
  - destruct (InitFacts.init_after_timeout int env model apiKey baseUrl
                timeout n R) as (Yes & No & Back).
    split; [|split].
    + intros text. split.
      * intros E. exfalso.
        destruct (Client.__init__ int env model apiKey baseUrl timeout)
          as [e|c] eqn:Ei; [|discriminate].
        injection E as ->. revert Ei. unfold Client.__init__. rewrite R.
        destruct (if_truthy _); [|discriminate].
        destruct (if_truthy _); [|discriminate].
        destruct (if_truthy _); discriminate.
      * intros (D & Et & Ei). exfalso.
        assert (X : Client.resolve_timeout int env timeout
                    = inl (Client.InvalidLiteral text)).
        { apply InitFacts.resolve_timeout_inl. exists text. now repeat split. }
        congruence.
    + split.
      * intros E. split; [now exists n|]. intros Sg.
        destruct (Yes Sg) as [c Ec]. congruence.
      * intros (_ & N). now apply No.
    + split.
      * intros N. split; [now exists n|].
        destruct (Client.__init__ int env model apiKey baseUrl timeout)
          as [e|c] eqn:Ei; [now elim (N e)|].
        now apply (Back c).
      * intros (_ & Sg) e E. destruct (Yes Sg) as [c Ec]. congruence.
Qed.

(** X11: in a client the constructor has built, the model, the key and
    the address are never empty; an argument that is a non-empty string is
    the value used, whatever the environment holds, and an argument that
    is absent or empty gives way to the variable of the environment. *)
Theorem init_prefers_arguments (int : string -> option Z)
    (env : Client.environ) (model apiKey baseUrl : option string)
    (timeout : option Z) (c : Client.t) :
  Client.__init__ int env model apiKey baseUrl timeout = inr c ->
  (Client.model c <> ""
   /\ Client.api_key (Client.client c) <> ""
   /\ Client.base_url (Client.client c) <> "")
  /\ (Client.given model -> model = Some (Client.model c))
  /\ (Client.given apiKey -> apiKey = Some (Client.api_key (Client.client c)))
  /\ (Client.given baseUrl ->
      baseUrl = Some (Client.base_url (Client.client c)))
  /\ (model = None \/ model = Some "" ->
      env "MODEL_ID" = Some (Client.model c))
  /\ (apiKey = None \/ apiKey = Some "" ->
      env "API_KEY" = Some (Client.api_key (Client.client c)))
  /\ (baseUrl = None \/ baseUrl = Some "" ->
      env "BASE_URL" = Some (Client.base_url (Client.client c))).
Proof.
  unfold Client.__init__.
  destruct (Client.resolve_timeout int env timeout) as [e|n]; [discriminate|].
  destruct (if_truthy (Client.or_else model (env "MODEL_ID"))) as [m|] eqn:Em;
    [|discriminate].
  destruct (if_truthy (Client.or_else apiKey (env "API_KEY"))) as [k|] eqn:Ek;
    [|discriminate].
  destruct (if_truthy (Client.or_else baseUrl (env "BASE_URL"))) as [u|] eqn:Eu;
    [|discriminate].
  intros [= <-]. cbn [Client.model Client.client Client.api_key Client.base_url].
  apply ClientFacts.if_truthy_Some_eq in Em as [Em Nm].
  apply ClientFacts.if_truthy_Some_eq in Ek as [Ek Nk].
  apply ClientFacts.if_truthy_Some_eq in Eu as [Eu Nu].
  assert (L : forall a b x, Client.or_else a b = Some x ->
                            (Client.given a -> a = Some x)
                            /\ (a = None \/ a = Some "" -> b = Some x)).
  { intros a b x E. split.
    - intros (ch & s & ->). now cbn in E.
    - intros D. now rewrite (ClientFacts.or_else_right a b D) in E. }
  destruct (L _ _ _ Em) as [Lm1 Lm2]. destruct (L _ _ _ Ek) as [Lk1 Lk2].
  destruct (L _ _ _ Eu) as [Lu1 Lu2].
  repeat split; assumption.
Qed.

Lemma init_prefers_arguments_witness :
  let env := fun v => if String.eqb v "API_KEY" then Some "sk-env"
                      else if String.eqb v "MODEL_ID" then Some "env-model"
                      else None in
  let c := {| Client.model := "my-model";
              Client.client := {| Client.api_key := "sk-env";
                                  Client.base_url := "https://llm.example";
                                  Client.timeout := 60 |} |} in
  (Client.model c <> ""
   /\ Client.api_key (Client.client c) <> ""
   /\ Client.base_url (Client.client c) <> "")
  /\ (Client.given (Some "my-model") -> Some "my-model" = Some (Client.model c))
  /\ (Client.given (Some "") ->
      Some "" = Some (Client.api_key (Client.client c)))
  /\ (Client.given (Some "https://llm.example") ->
      Some "https://llm.example" = Some (Client.base_url (Client.client c)))
  /\ (Some "my-model" = None \/ Some "my-model" = Some "" ->
      env "MODEL_ID" = Some (Client.model c))
  /\ (Some "" = None \/ Some "" = Some "" ->
      env "API_KEY" = Some (Client.api_key (Client.client c)))
  /\ (Some "https://llm.example" = None \/ Some "https://llm.example" = Some "" ->
      env "BASE_URL" = Some (Client.base_url (Client.client c))).
Proof.
  apply (init_prefers_arguments Client.numeral
           (fun v => if String.eqb v "API_KEY" then Some "sk-env"
                     else if String.eqb v "MODEL_ID" then Some "env-model"
                     else None)
           (Some "my-model") (Some "") (Some "https://llm.example") None).
  reflexivity.
Defined.

(** X12: a timeout given as a non-zero argument is the timeout of the
    client, and then neither the variable [TIMEOUT] nor the reading of
    integers plays any part: the constructor gives the same result
    whatever [TIMEOUT] holds, an ill-formed text included. *)
Theorem init_timeout_argument (int int' : string -> option Z)
    (env env' : Client.environ) (model apiKey baseUrl : option string)
    (n : Z) :
  n <> 0%Z ->
  (forall v, v <> "TIMEOUT" -> env v = env' v) ->
  Client.__init__ int env model apiKey baseUrl (Some n)
  = Client.__init__ int' env' model apiKey baseUrl (Some n)
  /\ forall c,
       Client.__init__ int env model apiKey baseUrl (Some n) = inr c ->
       Client.timeout (Client.client c) = n.
Proof.
  intros N Same. unfold Client.__init__.
  rewrite <- (Same "MODEL_ID"), <- (Same "API_KEY"), <- (Same "BASE_URL")
    by discriminate.
  assert (R : forall i e, Client.resolve_timeout i e (Some n) = inr n)
    by (intros i e; now destruct n).
  rewrite !R. split; [reflexivity|]. intros c.
  destruct (if_truthy (Client.or_else model (env "MODEL_ID"))); [|discriminate].
  destruct (if_truthy (Client.or_else apiKey (env "API_KEY"))); [|discriminate].
  destruct (if_truthy (Client.or_else baseUrl (env "BASE_URL")));
    [|discriminate].
  now intros [= <-].
Qed.

Lemma init_timeout_argument_witness :
  let env := fun v => if String.eqb v "TIMEOUT" then Some "soon" else Some "x" in
  let env' := fun v => if String.eqb v "TIMEOUT" then Some "30" else Some "x" in
  Client.__init__ Client.numeral env None None None (Some 15%Z)
  = Client.__init__ Client.numeral env' None None None (Some 15%Z)
  /\ forall c,
       Client.__init__ Client.numeral env None None None (Some 15%Z) = inr c ->
       Client.timeout (Client.client c) = 15%Z.
Proof.
  apply (init_timeout_argument Client.numeral Client.numeral
           (fun v => if String.eqb v "TIMEOUT" then Some "soon" else Some "x")
           (fun v => if String.eqb v "TIMEOUT" then Some "30" else Some "x")
           None None None 15%Z).
  - discriminate.
  - intros v N. destruct (String.eqb v "TIMEOUT") eqn:E; [|reflexivity].
    apply String.eqb_eq in E. contradiction.
Defined.

(** X13: a timeout that is absent or zero is replaced: by 60 when
    [TIMEOUT] is unset, by the integer [TIMEOUT] holds otherwise; and when
    [TIMEOUT] holds no integer the constructor raises the error of [int],
    also when the model, the key and the address are all given. *)
Theorem init_timeout_fallback (int : string -> option Z)
    (env : Client.environ) (model apiKey baseUrl : option string)
    (timeout : option Z) :
  timeout = None \/ timeout = Some 0%Z ->
  (forall c,
     Client.__init__ int env model apiKey baseUrl timeout = inr c ->
     (env "TIMEOUT" = None /\ Client.timeout (Client.client c) = 60%Z)
     \/ exists text,
          env "TIMEOUT" = Some text
          /\ int text = Some (Client.timeout (Client.client c)))
  /\ (forall text,
        env "TIMEOUT" = Some text -> int text = None ->
        Client.__init__ int env model apiKey baseUrl timeout
        = inl (Client.InvalidLiteral text)).
Proof.
  intros D. unfold Client.__init__.
  assert (R : Client.resolve_timeout int env timeout
              = match env "TIMEOUT" with
                | None => inr 60%Z
                | Some text =>
                    match int text with
                    | Some n => inr n
                    | None => inl (Client.InvalidLiteral text)
                    end
                end)
    by now destruct D as [-> | ->].
  rewrite R. clear R. split.
  - intros c. destruct (env "TIMEOUT") as [text|].
    + destruct (int text) as [n|] eqn:Ei; [|discriminate].
      destruct (if_truthy (Client.or_else model _)); [|discriminate].
      destruct (if_truthy (Client.or_else apiKey _)); [|discriminate].
      destruct (if_truthy (Client.or_else baseUrl _)); [|discriminate].
      intros [= <-]. right. now exists text.
    + destruct (if_truthy (Client.or_else model _)); [|discriminate].
      destruct (if_truthy (Client.or_else apiKey _)); [|discriminate].
      destruct (if_truthy (Client.or_else baseUrl _)); [|discriminate].
      intros [= <-]. now left.
  - intros text -> Ei. now rewrite Ei.
Qed.

Lemma init_timeout_fallback_witness :
  let env := fun v => if String.eqb v "TIMEOUT" then Some "1e3" else None in
  (forall c,
     Client.__init__ Client.numeral env (Some "m") (Some "k") (Some "u")
       (Some 0%Z) = inr c ->
     (env "TIMEOUT" = None /\ Client.timeout (Client.client c) = 60%Z)
     \/ exists text,
          env "TIMEOUT" = Some text
          /\ Client.numeral text = Some (Client.timeout (Client.client c)))
  /\ (forall text,
        env "TIMEOUT" = Some text -> Client.numeral text = None ->
        Client.__init__ Client.numeral env (Some "m") (Some "k") (Some "u")
          (Some 0%Z)
        = inl (Client.InvalidLiteral text)).
Proof.
  apply (init_timeout_fallback Client.numeral
           (fun v => if String.eqb v "TIMEOUT" then Some "1e3" else None)
           (Some "m") (Some "k") (Some "u") (Some 0%Z)).
  right. reflexivity.
Defined.

(** X14: [think] sends one streaming request with the model and the
    configuration of the client and the messages as given; when the
    stream yields chunks that all have a choice and then ends, and every
    call of [print] returns, [think] returns the contents of their first
    choices joined in order, an absent content counting as empty; the
    calls of [print] are one for each content, in order, and one for the
    line feed at the end.  The text returned depends on the joined
    contents only, not on how the stream cuts them into chunks. *)
Theorem think_assembles {S O : Type} `{Client.ChatService S}
    `{Client.Console O}
    (self : Client.t) (messages : list message) (temperature : Client.decimal)
    (w : Client.world S O) (cs : list Client.chunk) (svc : S) (out : O) :
  Client.create (Client.service w)
    {| Client.req_client := Client.client self;
       Client.req_model := Client.model self;
       Client.req_messages := messages;
       Client.req_temperature := temperature;
       Client.req_stream := true |}
  = (Client.Opened (Client.yields cs Client.StopIteration), svc) ->
  Forall Client.has_choice cs ->
  Client.writes (Client.stdout w) (Client.contents cs ++ [lf])%list
  = (out, true) ->
  Client.think self messages temperature w
  = (Some (String.concat "" (Client.contents cs)),
     {| Client.service := svc; Client.stdout := out |}).
Proof.
  intros C F W.
  rewrite (ClientFacts.think_stop self messages temperature w cs svc C F).
  now rewrite W.
Qed.

Lemma think_assembles_witness :
  let self := {| Client.model := "m";
                 Client.client := {| Client.api_key := "k";
                                     Client.base_url := "u";
                                     Client.timeout := 60 |} |} in
  let cs := [Client.text_chunk None; Client.text_chunk (Some "Thought: t");
             Client.text_chunk (Some ""); Client.text_chunk (Some lf);
             Client.text_chunk (Some "Action: Finish[42]")] in
  let w := {| Client.service :=
                [Client.Opened (Client.yields cs Client.StopIteration)];
              Client.stdout := "" |} in
  Client.think self [] Client.default_temperature w
  = (Some (String.concat "" (Client.contents cs)),
     {| Client.service := [];
        Client.stdout := reply "t" "Finish[42]" ++ lf |}).
Proof.
  apply (think_assembles
           {| Client.model := "m";
              Client.client := {| Client.api_key := "k";
                                  Client.base_url := "u";
                                  Client.timeout := 60 |} |}
           [] Client.default_temperature
           {| Client.service :=
                [Client.Opened
                   (Client.yields
                      [Client.text_chunk None;
                       Client.text_chunk (Some "Thought: t");
                       Client.text_chunk (Some ""); Client.text_chunk (Some lf);
                       Client.text_chunk (Some "Action: Finish[42]")]
                      Client.StopIteration)];
              Client.stdout := "" |}).
  - reflexivity.
  - repeat constructor; discriminate.
  - reflexivity.
Defined.

(** X15: [think] returns no text exactly when the request fails, or the
    stream, after chunks that all have a choice, raises or yields a chunk
    without any choice, or the stream ends and one of the calls of
    [print], the last one for the line feed included, raises.  When the
    stream breaks, the standard output is left as the calls of [print]
    for the chunks read so far have left it, and the text of those chunks
    is lost to the caller. *)
Theorem think_fails_iff {S O : Type} `{Client.ChatService S}
    `{Client.Console O}
    (self : Client.t) (messages : list message) (temperature : Client.decimal)
    (w : Client.world S O) (resp : Client.response) (svc : S) :
  Client.create (Client.service w)
    {| Client.req_client := Client.client self;
       Client.req_model := Client.model self;
       Client.req_messages := messages;
       Client.req_temperature := temperature;
       Client.req_stream := true |}
  = (resp, svc) ->
  (fst (Client.think self messages temperature w) = None
   <-> resp = Client.APIError
       \/ exists cs tail,
            resp = Client.Opened (Client.yields cs tail)
            /\ Forall Client.has_choice cs
            /\ (Client.breaks_now tail
                \/ (tail = Client.StopIteration
                    /\ snd (Client.writes (Client.stdout w)
                              (Client.contents cs ++ [lf])%list) = false)))
  /\ (forall cs tail,
        resp = Client.Opened (Client.yields cs tail) ->
        Forall Client.has_choice cs ->
        Client.breaks_now tail ->
        Client.think self messages temperature w
        = (None,
           {| Client.service := svc;
              Client.stdout :=
                fst (Client.writes (Client.stdout w) (Client.contents cs)) |})).
Proof.
  intros C. split.
  - split.
    + intros N. destruct resp as [|s]; [now left|]. right.
      destruct (ClientFacts.stream_split s) as (cs & tail & -> & F & [-> | B]).
      * exists cs, Client.StopIteration. split; [reflexivity|].
        split; [exact F|]. right. split; [reflexivity|].
        rewrite (ClientFacts.think_stop self messages temperature w cs svc C F)
          in N.
        destruct (Client.writes (Client.stdout w) (Client.contents cs ++ [lf]))
          as [out [|]]; [discriminate N | reflexivity].
      * exists cs, tail. now repeat split; auto.
    + intros [-> | (cs & tail & -> & F & [B | [-> W]])].
      * now rewrite (ClientFacts.think_api_error self messages temperature w
                       svc C).
      * now rewrite (ClientFacts.think_break self messages temperature w cs
                       tail svc C F B).
      * rewrite (ClientFacts.think_stop self messages temperature w cs svc C F).
        destruct (Client.writes (Client.stdout w) (Client.contents cs ++ [lf]))
          as [out [|]]; [discriminate W | reflexivity].
  - intros cs tail -> F B.
    exact (ClientFacts.think_break self messages temperature w cs tail svc
             C F B).
Qed.

Lemma think_fails_iff_witness :
  let self := {| Client.model := "m";
                 Client.client := {| Client.api_key := "k";
                                     Client.base_url := "u";
                                     Client.timeout := 60 |} |} in
  let resp :=
    Client.Opened
      (Client.yields [Client.text_chunk (Some "Thought: t")]
         Client.StopIteration) in
  let w : Client.world (list Client.response) unit :=
    {| Client.service := [resp]; Client.stdout := tt |} in
  (fst (Client.think self [] Client.default_temperature w) = None
   <-> resp = Client.APIError
       \/ exists cs tail,
            resp = Client.Opened (Client.yields cs tail)
            /\ Forall Client.has_choice cs
            /\ (Client.breaks_now tail
                \/ (tail = Client.StopIteration
                    /\ snd (Client.writes (Client.stdout w)
                              (Client.contents cs ++ [lf])%list) = false)))
  /\ (forall cs tail,
        resp = Client.Opened (Client.yields cs tail) ->
        Forall Client.has_choice cs ->
        Client.breaks_now tail ->
        Client.think self [] Client.default_temperature w
        = (None,
           {| Client.service := [];
              Client.stdout :=
                fst (Client.writes (Client.stdout w) (Client.contents cs)) |})).
Proof.
  apply (think_fails_iff
           {| Client.model := "m";
              Client.client := {| Client.api_key := "k";
                                  Client.base_url := "u";
                                  Client.timeout := 60 |} |}
           [] Client.default_temperature
           ({| Client.service :=
                 [Client.Opened
                    (Client.yields [Client.text_chunk (Some "Thought: t")]
                       Client.StopIteration)];
               Client.stdout := tt |}
            : Client.world (list Client.response) unit)).
  reflexivity.
Defined.

(** X16: the agent on top of the client.  When the first request of a run
    fails, or its stream breaks, or its stream ends having delivered no
    text at all, [run] returns no answer after that one request, with an
    empty history and no call of a tool. *)
Theorem no_completion_aborts_run {S O : Type} `{Client.ChatService S}
    `{Client.Console O}
    (a : ReActAgent (connected S O)) (q : string)
    (resp : Client.response) (svc : S) :
  (0 < max_steps a)%Z ->
  Client.create (Client.service (outside (llm_client a)))
    (Client.request_of (instance (llm_client a)) (request q (enter a))
       Client.default_temperature)
  = (resp, svc) ->
  resp = Client.APIError
  \/ (exists cs tail,
        resp = Client.Opened (Client.yields cs tail)
        /\ Forall Client.has_choice cs
        /\ (Client.breaks_now tail
            \/ (tail = Client.StopIteration
                /\ String.concat "" (Client.contents cs) = ""))) ->
  exists f,
    run a q = Some (Returned None, f)
    /\ history (self f) = []
    /\ calls f = [LLMCall (request q (enter a))]
    /\ Client.service (outside (llm_client (self f))) = svc.
Proof.
  intros Pos C D.
  assert (T : exists r w,
            Client.think (instance (llm_client a)) (request q (enter a))
              Client.default_temperature (outside (llm_client a))
            = (r, w)
            /\ if_truthy r = None /\ Client.service w = svc).
  { destruct D as [-> | (cs & tail & -> & F & [B | [-> E]])].
    - rewrite (ClientFacts.think_api_error _ _ _ _ _ C). now eexists _, _.
    - rewrite (ClientFacts.think_break _ _ _ _ _ _ _ C F B). now eexists _, _.
    - rewrite (ClientFacts.think_stop _ _ _ _ _ _ C F), E.
      destruct (Client.writes _ _) as [out [|]]; now eexists _, _. }
  destruct T as (r & w & T & N & Sv).
  set (g := {| instance := instance (llm_client a); outside := w |}).
  assert (Th : think (llm_client (self (enter a))) (request q (enter a))
               = (r, g)).
  { unfold think, connected_client.
    cbn [enter self set_history llm_client]. now rewrite T. }
  exists (answered q (enter a) g). split.
  - unfold run. cbn [while].
    replace (current_step (enter a) <? max_steps (self (enter a)))%Z with true
      by (symmetry; apply Z.ltb_lt; cbn; lia).
    now rewrite (body_no_response q (enter a) r g Th N).
  - now repeat split.
Qed.

Lemma no_completion_aborts_run_witness :
  let resp :=
    Client.Opened
      (Client.yields [Client.text_chunk None; Client.text_chunk (Some "")]
         Client.StopIteration) in
  let a : ReActAgent (connected (list Client.response) string) :=
    init {| instance := {| Client.model := "m";
                           Client.client := {| Client.api_key := "k";
                                               Client.base_url := "u";
                                               Client.timeout := 60 |} |};
            outside := {| Client.service := [resp]; Client.stdout := "" |} |}
      one_tool simple_tmpl None in
  exists f,
    run a "q" = Some (Returned None, f)
    /\ history (self f) = []
    /\ calls f = [LLMCall (request "q" (enter a))]
    /\ Client.service (outside (llm_client (self f))) = [].
Proof.
  apply (no_completion_aborts_run
           (init {| instance := {| Client.model := "m";
                                   Client.client :=
                                     {| Client.api_key := "k";
                                        Client.base_url := "u";
                                        Client.timeout := 60 |} |};
                    outside :=
                      {| Client.service :=
                           [Client.Opened
                              (Client.yields
                                 [Client.text_chunk None;
                                  Client.text_chunk (Some "")]
                                 Client.StopIteration)];
                         Client.stdout := "" |} |}
              one_tool simple_tmpl None)
           "q"
           (Client.Opened
              (Client.yields [Client.text_chunk None; Client.text_chunk (Some "")]
                 Client.StopIteration))
           []).
  - reflexivity.
  - reflexivity.
  - right. exists [Client.text_chunk None; Client.text_chunk (Some "")],
      Client.StopIteration.
    split; [reflexivity|]. split; [repeat constructor; discriminate|].
    right. split; reflexivity.
Defined.

(** X17: the agent on top of the client, when all goes well.  However
    the stream cuts it into chunks, a first completion that reads as a
    thought line followed by the action line of a final answer, every
    call of [print] for it returning, makes [run] return the payload
    after that one request, with an empty history; the standard output is
    left as those calls of [print], the one for the final line feed
    included, have left it. *)
Theorem streamed_answer_is_returned {S O : Type} `{Client.ChatService S}
    `{Client.Console O}
    (a : ReActAgent (connected S O)) (q : string)
    (cs : list Client.chunk) (svc : S) (out : O) (thought p : string) :
  (0 < max_steps a)%Z ->
  Client.create (Client.service (outside (llm_client a)))
    (Client.request_of (instance (llm_client a)) (request q (enter a))
       Client.default_temperature)
  = (Client.Opened (Client.yields cs Client.StopIteration), svc) ->
  Forall Client.has_choice cs ->
  String.concat "" (Client.contents cs)
  = "Thought: " ++ thought ++ lf ++ "Action: Finish[" ++ p ++ "]" ->
  Client.writes (Client.stdout (outside (llm_client a)))
    (Client.contents cs ++ [lf])%list
  = (out, true) ->
  Str.contains "Action: " thought = false ->
  Str.mem Str.nl p = false ->
  exists f,
    run a q = Some (Returned (Some p), f)
    /\ history (self f) = []
    /\ calls f = [LLMCall (request q (enter a))]
    /\ Client.stdout (outside (llm_client (self f))) = out.
Proof.
  intros Pos C F E W Ct M.
  pose proof (ClientFacts.think_stop _ _ _ _ _ _ C F) as T.
  rewrite W, E in T.
  set (g := {| instance := instance (llm_client a);
               outside := {| Client.service := svc; Client.stdout := out |} |}).
  assert (Th : think (llm_client (self (enter a))) (request q (enter a))
               = (Some (reply thought ("Finish[" ++ p ++ "]")), g)).
  { unfold think, connected_client.
    cbn [enter self set_history llm_client]. now rewrite T. }
  exists (answered q (enter a) g). split; [|now repeat split].
  unfold run. cbn [while].
  replace (current_step (enter a) <? max_steps (self (enter a)))%Z with true
    by (symmetry; apply Z.ltb_lt; cbn; lia).
  rewrite (body_act q (enter a) _ g _ Th (parse_output_finish thought p Ct M))
    by discriminate.
  now rewrite (act_finish p _ M).
Qed.

Lemma streamed_answer_is_returned_witness :
  let cs := [Client.text_chunk (Some "Thou"); Client.text_chunk None;
             Client.text_chunk (Some ("ght: t" ++ lf ++ "Action: Fin"));
             Client.text_chunk (Some "ish[42]")] in
  let a : ReActAgent (connected (list Client.response) string) :=
    init {| instance := {| Client.model := "m";
                           Client.client := {| Client.api_key := "k";
                                               Client.base_url := "u";
                                               Client.timeout := 60 |} |};
            outside :=
              {| Client.service :=
                   [Client.Opened (Client.yields cs Client.StopIteration)];
                 Client.stdout := "" |} |}
      one_tool simple_tmpl None in
  exists f,
    run a "q" = Some (Returned (Some "42"), f)
    /\ history (self f) = []
    /\ calls f = [LLMCall (request "q" (enter a))]
    /\ Client.stdout (outside (llm_client (self f)))
       = "Thought: t" ++ lf ++ "Action: Finish[42]" ++ lf.
Proof.
  apply (streamed_answer_is_returned
           (init {| instance := {| Client.model := "m";
                                   Client.client :=
                                     {| Client.api_key := "k";
                                        Client.base_url := "u";
                                        Client.timeout := 60 |} |};
                    outside :=
                      {| Client.service :=
                           [Client.Opened
                              (Client.yields
                                 [Client.text_chunk (Some "Thou");
                                  Client.text_chunk None;
                                  Client.text_chunk
                                    (Some ("ght: t" ++ lf ++ "Action: Fin"));
                                  Client.text_chunk (Some "ish[42]")]
                                 Client.StopIteration)];
                         Client.stdout := "" |} |}
              one_tool simple_tmpl None)
           "q"
           [Client.text_chunk (Some "Thou"); Client.text_chunk None;
            Client.text_chunk (Some ("ght: t" ++ lf ++ "Action: Fin"));
            Client.text_chunk (Some "ish[42]")]
           [] ("Thought: t" ++ lf ++ "Action: Finish[42]" ++ lf) "t" "42").
  - reflexivity.
  - reflexivity.
  - repeat constructor; discriminate.
  - reflexivity.
  - reflexivity.
  - reflexivity.
  - reflexivity.
Defined.

(** X18: an agent built without [max_steps] has the bound 5 and an empty
    history: whatever the generator, the tools, the template and the
    question, a run of it makes at most 5 calls of the generator and ends
    with at most 10 lines in the history. *)
Theorem default_agent_is_bounded {G : Type} `{LLMClient G}
    (g : G) (te : ToolExecutor) (tmpl : PromptTemplate) (q : string) :
  history (init g te tmpl None) = []
  /\ exists o f,
       run (init g te tmpl None) q = Some (o, f)
       /\ llm_calls (calls f) <= 5
       /\ List.length (history (self f)) <= 10.
Proof.
  split; [reflexivity|].
  destruct (run_accounted (init g te tmpl None) q)
    as (o & f & R & _ & _ & _ & Hi).
  destruct (run_end (init g te tmpl None) q)
    as (o' & f' & R' & E1 & E2 & _).
  rewrite R in R'. injection R' as <- <-.
  exists o, f. split; [exact R|].
  change (max_steps (init g te tmpl None)) with 5%Z in E2. lia.
Qed.

Lemma join_snoc (sep : string) (h : list string) (x : string) :
  Str.join sep (h ++ [x])
  = match h with
    | [] => x
    | _ :: _ => Str.join sep h ++ sep ++ x
    end.
Proof.
  induction h as [|y h IH]; [reflexivity|].
  destruct h as [|z h]; [reflexivity|].
  change (Str.join sep ((y :: z :: h) ++ [x]))
    with (y ++ sep ++ Str.join sep ((z :: h) ++ [x])).
  rewrite IH.
  change (Str.join sep (y :: z :: h)) with (y ++ sep ++ Str.join sep (z :: h)).
  now rewrite !StrFacts.append_assoc.
Qed.

(** X19: how a step is fed back to the generator.  After a step has
    appended its two lines, the next prompt is the template filled with
    the same tool catalogue and question, and with the former history
    text followed, on lines of their own, by the action line and the
    observation line of that step. *)
Theorem next_prompt_carries_step {G : Type} `{LLMClient G}
    (a : ReActAgent G) (q action observation : string) :
  render
    (set_history a
       (history a ++ [action_line action; observation_line observation])%list)
    q
  = system_prompt_tmpl a (getAvailableTools (tool_executor a)) q
      (match history a with
       | [] => ""
       | _ :: _ => Str.join lf (history a) ++ lf
       end
       ++ "Action: " ++ action ++ lf ++ "Observation: " ++ observation).
Proof.
  unfold render. cbn [set_history history tool_executor system_prompt_tmpl].
  f_equal.
  change (history a ++ [action_line action; observation_line observation])%list
    with (history a ++ [action_line action] ++ [observation_line observation])%list.
  rewrite app_assoc, join_snoc.
  destruct (history a) as [|x h] eqn:E.
  - cbn [app]. unfold action_line, observation_line.
    cbn [Str.join]. now rewrite !StrFacts.append_assoc.
  - change ((x :: h) ++ [action_line action])%list
      with (x :: (h ++ [action_line action]))%list.
    change (x :: (h ++ [action_line action]))%list
      with ((x :: h) ++ [action_line action])%list.
    rewrite join_snoc. unfold action_line, observation_line.
    now rewrite !StrFacts.append_assoc.
Qed.
